(** * The update checker of kots: scheduling, single-flight gate, staging

    A shallow embedding of [pkg/updatechecker/updatechecker.go]: the
    package-level job registry ([jobs], [mtx]), [Start], [Configure], [Stop]
    and [CheckForUpdates] with its detached staging goroutine.

    Go values are modelled as follows.
    - [error] is [option string]: [None] is [nil], [Some m] an error whose
      text is [m].  A call returning [(v, err)] returns a pair.
    - [int64] and [int] values are [Z]; the only arithmetic of the package is
      [len(updates)-1], [int64(len(updates))] and [t.Hour() % 4].
    - [*cron.Cron] is an address into a heap of scheduler objects, so that
      the alias held in [jobs] and the local [job] see the same object.
    - Calls into other packages (store, license, upstream, version, ...) go
      through a record of collaborators acting on an abstract world [W];
      every such call is recorded, with its result, in the trace of the run.
    - A [go] statement records the spawned closure in the trace; the closure
      body is a computation of its own, run by [run_task]. *)

From Stdlib Require Import ZArith Ascii String DecimalString Lia Sorted.
From stdpp Require Import base gmap strings list.

Open Scope Z_scope.

(** ** Errors ([github.com/pkg/errors]) *)

Definition error : Type := option string.

Definition nil : error := None.

Definition not_nil (err : error) : bool :=
  match err with Some _ => true | None => false end.

Definition errors_New (message : string) : error := Some message.

(** [errors.Wrap] annotates [err] with [message]; as documented by the
    library, "if err is nil, Wrap returns nil". *)
Definition errors_Wrap (err : error) (message : string) : error :=
  match err with
  | None => None
  | Some cause => Some (message +:+ ": " +:+ cause)
  end.

(** [%d] of [fmt.Sprintf]. *)
Definition fmt_d (n : Z) : string := NilZero.string_of_int (Z.to_int n).

(** ** Data of the collaborating packages *)

Record App := {
  ID : string;
  Slug : string;
  IsAirgap : bool;
  UpdateCheckerSpec : string;
  CurrentSequence : Z
}.

Record AppVersion := { Sequence : Z }.

Record Downstream := { ClusterID : string }.

Record Update := { Cursor : string }.

Definition License : Type := string.

Definition ReportingInfo : Type := string.

(** The fields of [kotsutil.KotsKinds] read by the package:
    [Installation.Spec.*] and [License.Spec.AppSlug]. *)
Record KotsKinds := {
  Installation_UpdateCursor : string;
  Installation_ChannelID : string;
  Installation_ChannelName : string;
  Installation_VersionLabel : string;
  License_AppSlug : string
}.

Record GetUpdatesOptions := {
  opt_License : License;
  opt_CurrentCursor : string;
  opt_CurrentChannelID : string;
  opt_CurrentChannelName : string;
  opt_CurrentVersionLabel : string;
  opt_Silent : bool;
  opt_ReportingInfo : ReportingInfo
}.

(** ** Wall-clock time ([time.Time])

    A time is the number of seconds of local wall clock since the epoch;
    [Hour] is in [0,23] and [Minute] in [0,59]. *)

Record Time := { wallSeconds : Z }.

Definition Hour (t : Time) : Z := (wallSeconds t / 3600) mod 24.

Definition Minute (t : Time) : Z := (wallSeconds t / 60) mod 60.

Definition same_wall_minute (t1 t2 : Time) : Prop :=
  wallSeconds t1 / 60 = wallSeconds t2 / 60.

(** ** Scheduler objects ([github.com/robfig/cron/v3])

    An entry keeps its id, its schedule text and the variables captured by
    the callback installed by [Configure]. *)

Record Entry := {
  EntryID : Z;
  entrySpec : string;
  jobAppID : string;
  jobAppSlug : string
}.

Record Cron := {
  entries : list Entry;
  running : bool;
  nextID : Z
}.

Definition ptr : Type := nat.

(** ** Closures started with [go] *)

Inductive Task :=
| TaskStaging (a : App) (archiveDir : string) (updates : list Update)
    (deploy skipPreflights isCLI : bool)
| TaskReport (appID : string) (sequence : Z) (skipPreflights isCLI : bool).

(** ** The trace of a run: one event per call into another package *)

Inductive Event :=
| EvLog (level message : string)
| EvListInstalledApps (r : list App * error)
| EvGetApp (appID : string) (r : App * error)
| EvTimeNow (t : Time)
| EvGetTaskStatus (id : string) (r : string * string * error)
| EvClearTaskStatus (id : string) (r : error)
| EvSetTaskStatus (id message status : string) (r : error)
| EvLicenseSync (a : App) (r : License * bool * error)
| EvTempDir (r : string * error)
| EvRemoveAll (path : string)
| EvGetAppVersionArchive (appID : string) (sequence : Z) (dir : string)
    (r : error)
| EvLoadKotsKinds (dir : string) (r : KotsKinds * error)
| EvGetLatestLicense (appID : string) (r : License * error)
| EvGetReportingInfo (appID : string) (r : ReportingInfo)
| EvGetUpdates (upstreamURI : string) (o : GetUpdatesOptions)
    (r : list Update * error)
| EvLastUpdateAtTime (appID : string) (r : error)
| EvGetVersions (appID : string) (r : list AppVersion * error)
| EvListDownstreams (appID : string) (r : list Downstream * error)
| EvGetCurrentParentSequence (appID clusterID : string) (r : Z * error)
| EvDeployVersion (appID : string) (sequence : Z) (r : error)
| EvDownloadUpdate (appID archiveDir cursor : string) (skipPreflights : bool)
    (r : Z * error)
| EvReportAppInfo (appID : string) (sequence : Z)
    (skipPreflights isCLI : bool) (r : error)
| EvGo (t : Task).

(** ** The collaborators

    Reads of the store, of the staged files and of the clock are functions
    of the world; everything that writes, or goes over the network, returns
    a new world. *)

Record Collaborators (W : Type) := {
  store_ListInstalledApps : W -> list App * error;
  store_GetApp : string -> W -> App * error;
  store_GetTaskStatus : string -> W -> string * string * error;
  store_ClearTaskStatus : string -> W -> error * W;
  store_SetTaskStatus : string -> string -> string -> W -> error * W;
  store_GetAppVersionArchive : string -> Z -> string -> W -> error * W;
  store_GetLatestLicenseForApp : string -> W -> License * error;
  store_ListDownstreamsForApp : string -> W -> list Downstream * error;
  store_GetCurrentParentSequence : string -> string -> W -> Z * error;
  license_Sync : App -> string -> bool -> W -> (License * bool * error) * W;
  ioutil_TempDir : string -> string -> W -> (string * error) * W;
  os_RemoveAll : string -> W -> W;
  kotsutil_LoadKotsKindsFromPath : string -> W -> KotsKinds * error;
  reporting_GetReportingInfo : string -> W -> ReportingInfo;
  kotspull_GetUpdates :
    string -> GetUpdatesOptions -> W -> (list Update * error) * W;
  app_LastUpdateAtTime : string -> W -> error * W;
  version_GetVersions : string -> W -> list AppVersion * error;
  version_DeployVersion : string -> Z -> W -> error * W;
  upstream_DownloadUpdate :
    string -> string -> string -> bool -> W -> (Z * error) * W;
  reporting_ReportAppInfo : string -> Z -> bool -> bool -> W -> error * W;
  time_Now : W -> Time;
  (** what the scheduler's parser says of a schedule text *)
  cron_Parse : string -> error
}.

Arguments store_ListInstalledApps {W}.
Arguments store_GetApp {W}.
Arguments store_GetTaskStatus {W}.
Arguments store_ClearTaskStatus {W}.
Arguments store_SetTaskStatus {W}.
Arguments store_GetAppVersionArchive {W}.
Arguments store_GetLatestLicenseForApp {W}.
Arguments store_ListDownstreamsForApp {W}.
Arguments store_GetCurrentParentSequence {W}.
Arguments license_Sync {W}.
Arguments ioutil_TempDir {W}.
Arguments os_RemoveAll {W}.
Arguments kotsutil_LoadKotsKindsFromPath {W}.
Arguments reporting_GetReportingInfo {W}.
Arguments kotspull_GetUpdates {W}.
Arguments app_LastUpdateAtTime {W}.
Arguments version_GetVersions {W}.
Arguments version_DeployVersion {W}.
Arguments upstream_DownloadUpdate {W}.
Arguments reporting_ReportAppInfo {W}.
Arguments time_Now {W}.
Arguments cron_Parse {W}.

(** ** Program state and the monad of runs *)

Record State (W : Type) := {
  world : W;
  (** [var jobs = make(map[string]*cron.Cron)] *)
  jobs : gmap string ptr;
  (** the scheduler objects the pointers of [jobs] refer to *)
  heap : gmap ptr Cron;
  (** [var mtx sync.Mutex]: [true] while held *)
  mtx : bool
}.

Arguments world {W}.
Arguments jobs {W}.
Arguments heap {W}.
Arguments mtx {W}.

Inductive Outcome (A : Type) :=
| Returned (a : A)
| Panicked (message : string)
| Blocked.

Arguments Returned {A}.
Arguments Panicked {A}.
Arguments Blocked {A}.

Record Run (W A : Type) := {
  outcome : Outcome A;
  final : State W;
  events : list Event
}.

Arguments outcome {W A}.
Arguments final {W A}.
Arguments events {W A}.

Definition M (W A : Type) : Type := State W -> Run W A.

Definition ret {W A} (a : A) : M W A :=
  fun s => {| outcome := Returned a; final := s; events := [] |}.

Definition bind {W A B} (m : M W A) (k : A -> M W B) : M W B :=
  fun s =>
    match m s with
    | {| outcome := Returned a; final := s1; events := t1 |} =>
        match k a s1 with
        | {| outcome := o; final := s2; events := t2 |} =>
            {| outcome := o; final := s2; events := t1 ++ t2 |}
        end
    | {| outcome := Panicked msg; final := s1; events := t1 |} =>
        {| outcome := Panicked msg; final := s1; events := t1 |}
    | {| outcome := Blocked; final := s1; events := t1 |} =>
        {| outcome := Blocked; final := s1; events := t1 |}
    end.

#[global] Instance M_ret {W} : MRet (M W) := fun A => ret.
#[global] Instance M_bind {W} : MBind (M W) := fun A B k m => bind m k.

Definition panic {W A} (message : string) : M W A :=
  fun s => {| outcome := Panicked message; final := s; events := [] |}.

(** [defer d] in front of [body]: [d] runs when [body] returns or panics,
    and the outcome of [body] stands. *)
Definition defer {W A} (d : M W unit) (body : M W A) : M W A :=
  fun s =>
    match body s with
    | {| outcome := Blocked; final := s1; events := t1 |} =>
        {| outcome := Blocked; final := s1; events := t1 |}
    | {| outcome := o; final := s1; events := t1 |} =>
        match d s1 with
        | {| outcome := Returned _; final := s2; events := t2 |} =>
            {| outcome := o; final := s2; events := t1 ++ t2 |}
        | {| outcome := Panicked m; final := s2; events := t2 |} =>
            {| outcome := Panicked m; final := s2; events := t1 ++ t2 |}
        | {| outcome := Blocked; final := s2; events := t2 |} =>
            {| outcome := Blocked; final := s2; events := t1 ++ t2 |}
        end
    end.

(** [for _, x := range l { f x }] *)
Fixpoint for_range {W A} (l : list A) (f : A -> M W unit) : M W unit :=
  match l with
  | [] => ret tt
  | x :: l' => bind (f x) (fun _ => for_range l' f)
  end.

(** [for index, x := range l { f index x }], counting from [index]. *)
Fixpoint for_range_from {W A} (index : Z) (l : list A)
    (f : Z -> A -> M W unit) : M W unit :=
  match l with
  | [] => ret tt
  | x :: l' => bind (f index x) (fun _ => for_range_from (index + 1) l' f)
  end.

(** ** Primitive computations *)

Section Primitives.
Context {W : Type}.

Definition set_world (w : W) (s : State W) : State W :=
  {| world := w; jobs := jobs s; heap := heap s; mtx := mtx s |}.

Definition set_jobs (j : gmap string ptr) (s : State W) : State W :=
  {| world := world s; jobs := j; heap := heap s; mtx := mtx s |}.

Definition set_heap (h : gmap ptr Cron) (s : State W) : State W :=
  {| world := world s; jobs := jobs s; heap := h; mtx := mtx s |}.

Definition set_mtx (b : bool) (s : State W) : State W :=
  {| world := world s; jobs := jobs s; heap := heap s; mtx := b |}.

(** A call that only reads the world. *)
Definition read {A} (f : W -> A) (ev : A -> Event) : M W A :=
  fun s =>
    {| outcome := Returned (f (world s)); final := s;
       events := [ev (f (world s))] |}.

(** A call that may change the world. *)
Definition call {A} (f : W -> A * W) (ev : A -> Event) : M W A :=
  fun s =>
    match f (world s) with
    | (r, w) =>
        {| outcome := Returned r; final := set_world w s; events := [ev r] |}
    end.

Definition emit (e : Event) : M W unit :=
  fun s => {| outcome := Returned tt; final := s; events := [e] |}.

Definition logger_Debug (message : string) : M W unit :=
  emit (EvLog "debug" message).

(** [logger.Error(err)]: the text of [err], empty for [nil]. *)
Definition logger_Error (err : error) : M W unit :=
  emit (EvLog "error" (default "" err)).

(** [go f()] *)
Definition go (t : Task) : M W unit := emit (EvGo t).

(** [mtx.Lock()]: a second [Lock] of a held mutex never returns. *)
Definition mtx_Lock : M W unit :=
  fun s =>
    if mtx s
    then {| outcome := Blocked; final := s; events := [] |}
    else {| outcome := Returned tt; final := set_mtx true s; events := [] |}.

(** [mtx.Unlock()]: unlocking a mutex that is not held is a fatal error. *)
Definition mtx_Unlock : M W unit :=
  fun s =>
    if mtx s
    then {| outcome := Returned tt; final := set_mtx false s; events := [] |}
    else {| outcome := Panicked "sync: unlock of unlocked mutex";
            final := s; events := [] |}.

(** [job, ok := jobs[appID]] *)
Definition jobs_lookup (appID : string) : M W (option ptr) :=
  fun s =>
    {| outcome := Returned (jobs s !! appID); final := s; events := [] |}.

(** [jobs[appID] = job] *)
Definition jobs_store (appID : string) (job : ptr) : M W unit :=
  fun s =>
    {| outcome := Returned tt; final := set_jobs (<[appID := job]> (jobs s)) s;
       events := [] |}.

(** Access to the scheduler object behind a pointer. *)
Definition with_cron {A} (job : ptr) (f : Cron -> A * Cron) : M W A :=
  fun s =>
    match heap s !! job with
    | Some c =>
        match f c with
        | (r, c') =>
            {| outcome := Returned r;
               final := set_heap (<[job := c']> (heap s)) s; events := [] |}
        end
    | None =>
        {| outcome := Panicked "invalid memory address or nil pointer dereference";
           final := s; events := [] |}
    end.

(** [cron.New(...)]: a fresh scheduler, not running, without entries. *)
Definition cron_New : M W ptr :=
  fun s =>
    let p := fresh (dom (heap s)) in
    {| outcome := Returned p;
       final :=
         set_heap (<[p := {| entries := []; running := false; nextID := 0 |}]>
                     (heap s)) s;
       events := [] |}.

(** [job.Entries()]: a snapshot of the entries. *)
Definition cron_Entries (job : ptr) : M W (list Entry) :=
  with_cron job (fun c => (entries c, c)).

(** [job.Remove(id)] *)
Definition cron_Remove (job : ptr) (id : Z) : M W unit :=
  with_cron job (fun c =>
    (tt, {| entries := filter (fun e => EntryID e ≠ id) (entries c);
            running := running c; nextID := nextID c |})).

(** [job.Start()] *)
Definition cron_Start (job : ptr) : M W unit :=
  with_cron job (fun c =>
    (tt, {| entries := entries c; running := true; nextID := nextID c |})).

(** [job.Stop()] *)
Definition cron_Stop (job : ptr) : M W unit :=
  with_cron job (fun c =>
    (tt, {| entries := entries c; running := false; nextID := nextID c |})).

(** [job.AddFunc(spec, cmd)]: the text is parsed first; when it is
    refused nothing is added, otherwise the entry gets the next id.  [cmd]
    is the callback of [Configure], represented by what it captures. *)
Definition cron_AddFunc (parse : string -> error) (job : ptr)
    (spec : string) (capturedID capturedSlug : string) : M W (Z * error) :=
  match parse spec with
  | Some e => ret (0, Some e)
  | None =>
      with_cron job (fun c =>
        let id := nextID c + 1 in
        ((id, nil),
         {| entries := entries c ++
              [{| EntryID := id; entrySpec := spec;
                  jobAppID := capturedID; jobAppSlug := capturedSlug |}];
            running := running c; nextID := id |}))
  end.

End Primitives.

(** ** [Stop], [Configure], [Start] *)

Section UpdateChecker.
Context {W : Type} (C : Collaborators W).

(** [jobs] is made once and never assigned again, so the [jobs == nil]
    branch of the source is dead and left out. *)
Definition Stop (appID : string) : M W unit :=
  job ← jobs_lookup appID;
  match job with
  | Some job => cron_Stop job
  | None => logger_Debug "cron job not found for app"
  end.

(** The schedule text the cadence stands for once it is known not to be
    disabled (lines 78-84). *)
Definition resolveSpec (cronSpec : string) : M W string :=
  if decide (cronSpec = "@default") then
    t ← read (time_Now C) EvTimeNow;
    let m := Minute t in
    let h := Hour t mod 4 in
    mret (fmt_d m +:+ " " +:+ fmt_d h +:+ "/4 * * *")
  else mret cronSpec.

Definition Configure (appID : string) : M W error :=
  '(a, err) ← read (store_GetApp C appID) (EvGetApp appID);
  if not_nil err then mret (errors_Wrap err "failed to get app") else
  if IsAirgap a then mret nil else
  logger_Debug "configure update checker for app";;
  mtx_Lock;;
  defer mtx_Unlock (
    let cronSpec := UpdateCheckerSpec a in
    if decide (cronSpec = "@never" ∨ cronSpec = "") then
      Stop (ID a);;
      mret nil
    else
    cronSpec ← resolveSpec cronSpec;
    found ← jobs_lookup (ID a);
    job ← match found with
          | Some job =>
              (* job already exists, remove entries *)
              entries ← cron_Entries job;
              for_range entries (fun entry => cron_Remove job (EntryID entry));;
              mret job
          | None =>
              (* job does not exist, create a new one *)
              cron_New
          end;
    let jobAppID := ID a in
    let jobAppSlug := Slug a in
    '(_, err) ← cron_AddFunc (cron_Parse C) job cronSpec jobAppID jobAppSlug;
    if not_nil err then mret (errors_Wrap err "failed to add func") else
    cron_Start job;;
    jobs_store (ID a) job;;
    mret nil).

Definition Start : M W error :=
  logger_Debug "starting update checker";;
  '(appsList, err) ← read (store_ListInstalledApps C) EvListInstalledApps;
  if not_nil err then mret (errors_Wrap err "failed to list installed apps") else
  for_range appsList (fun a =>
    if IsAirgap a then mret tt else
    err ← Configure (ID a);
    if not_nil err
    then logger_Error (errors_Wrap err ("failed to configure app " +:+ Slug a))
    else mret tt);;
  mret nil.

End UpdateChecker.

(** ** [CheckForUpdates] and the goroutines it starts *)

(** A deferred closure that reads a local variable of the function.  The
    body returns its result together with the value the variable has at the
    [return]; [x0] is the value it has wherever the body can panic. *)
Definition defer_reading {W A X} (x0 : X) (d : X -> M W unit)
    (body : M W (A * X)) : M W A :=
  fun s =>
    match body s with
    | {| outcome := Blocked; final := s1; events := t1 |} =>
        {| outcome := Blocked; final := s1; events := t1 |}
    | {| outcome := Returned (a, x); final := s1; events := t1 |} =>
        match d x s1 with
        | {| outcome := Returned _; final := s2; events := t2 |} =>
            {| outcome := Returned a; final := s2; events := t1 ++ t2 |}
        | {| outcome := Panicked m; final := s2; events := t2 |} =>
            {| outcome := Panicked m; final := s2; events := t1 ++ t2 |}
        | {| outcome := Blocked; final := s2; events := t2 |} =>
            {| outcome := Blocked; final := s2; events := t1 ++ t2 |}
        end
    | {| outcome := Panicked msg; final := s1; events := t1 |} =>
        match d x0 s1 with
        | {| outcome := Blocked; final := s2; events := t2 |} =>
            {| outcome := Blocked; final := s2; events := t1 ++ t2 |}
        | {| outcome := _; final := s2; events := t2 |} =>
            {| outcome := Panicked msg; final := s2; events := t1 ++ t2 |}
        end
    end.

Section CheckForUpdates.
Context {W : Type} (C : Collaborators W).

Definition RemoveAll (path : string) : M W unit :=
  call (fun w => (tt, os_RemoveAll C path w)) (fun _ => EvRemoveAll path).

(** The closure of lines 292-297. *)
Definition reportTask (appID : string) (sequence : Z)
    (skipPreflights isCLI : bool) : M W unit :=
  err ← call (reporting_ReportAppInfo C appID sequence skipPreflights isCLI)
             (EvReportAppInfo appID sequence skipPreflights isCLI);
  if not_nil err
  then logger_Debug ("failed to update preflights reports: " +:+ default "" err)
  else mret tt.

(** The closure of lines 275-300: the staging pipeline. *)
Definition stagingTask (a : App) (archiveDir : string)
    (updates : list Update) (deploy skipPreflights isCLI : bool) : M W unit :=
  defer (RemoveAll archiveDir) (
    for_range_from 0 updates (fun index update =>
      (* the latest version is in archive dir *)
      '(sequence, err) ←
         call (upstream_DownloadUpdate C (ID a) archiveDir (Cursor update)
                 skipPreflights)
              (EvDownloadUpdate (ID a) archiveDir (Cursor update)
                 skipPreflights);
      if not_nil err then logger_Error err (* continue *) else
      (* deploy latest version? *)
      if deploy && bool_decide (index = Z.of_nat (length updates) - 1) then
        err ← call (version_DeployVersion C (ID a) sequence)
                   (EvDeployVersion (ID a) sequence);
        (if not_nil err then logger_Error err else mret tt);;
        (* preflights reporting *)
        go (TaskReport (ID a) sequence skipPreflights isCLI)
      else mret tt)).

Definition run_task (t : Task) : M W unit :=
  match t with
  | TaskStaging a archiveDir updates deploy skipPreflights isCLI =>
      stagingTask a archiveDir updates deploy skipPreflights isCLI
  | TaskReport appID sequence skipPreflights isCLI =>
      reportTask appID sequence skipPreflights isCLI
  end.

(** [allVersions[len(allVersions)-1]], for a list known not to be empty. *)
Definition last_version (allVersions : list AppVersion) : AppVersion :=
  List.last allVersions {| Sequence := 0 |}.

Definition CheckForUpdates (appID : string)
    (deploy skipPreflights isCLI : bool) : M W (Z * error) :=
  '(currentStatus, _, err) ←
     read (store_GetTaskStatus C "update-download")
          (EvGetTaskStatus "update-download");
  if not_nil err then mret (0, errors_Wrap err "failed to get task status") else
  if decide (currentStatus = "running") then
    logger_Debug "update-download is already running, not starting a new one";;
    mret (0, nil)
  else
  err ← call (store_ClearTaskStatus C "update-download")
             (EvClearTaskStatus "update-download");
  if not_nil err then mret (0, errors_Wrap err "failed to clear task status") else
  '(a, err) ← read (store_GetApp C appID) (EvGetApp appID);
  if not_nil err then mret (0, errors_Wrap err "failed to get app") else
  (* sync license, this method is only called when online *)
  '(_, _, err) ← call (license_Sync C a "" false) (EvLicenseSync a);
  if not_nil err then mret (0, errors_Wrap err "failed to sync license") else
  (* reload app because license sync could have created a new release *)
  '(a, err) ← read (store_GetApp C appID) (EvGetApp appID);
  if not_nil err then mret (0, errors_Wrap err "failed to get app") else
  '(archiveDir, err) ← call (ioutil_TempDir C "" "kotsadm") EvTempDir;
  if not_nil err then mret (0, errors_Wrap err "failed to create temp dir") else
  let removeArchiveDir := true in
  defer_reading true
    (fun removeArchiveDir : bool =>
       if removeArchiveDir then RemoveAll archiveDir else mret tt) (
    err ← call (store_GetAppVersionArchive C (ID a) (CurrentSequence a) archiveDir)
               (EvGetAppVersionArchive (ID a) (CurrentSequence a) archiveDir);
    if not_nil err then
      mret (0, errors_Wrap err "failed to get app version archive", removeArchiveDir)
    else
    (* we need a few objects from the app to check for updates *)
    '(kotsKinds, err) ← read (kotsutil_LoadKotsKindsFromPath C archiveDir)
                             (EvLoadKotsKinds archiveDir);
    if not_nil err then
      mret (0, errors_Wrap err "failed to load kotskinds from path", removeArchiveDir)
    else
    '(latestLicense, err) ← read (store_GetLatestLicenseForApp C (ID a))
                                 (EvGetLatestLicense (ID a));
    if not_nil err then
      mret (0, errors_Wrap err "failed to get latest license", removeArchiveDir)
    else
    reportingInfo ← read (reporting_GetReportingInfo C (ID a))
                         (EvGetReportingInfo (ID a));
    let getUpdatesOptions :=
      {| opt_License := latestLicense;
         opt_CurrentCursor := Installation_UpdateCursor kotsKinds;
         opt_CurrentChannelID := Installation_ChannelID kotsKinds;
         opt_CurrentChannelName := Installation_ChannelName kotsKinds;
         opt_CurrentVersionLabel := Installation_VersionLabel kotsKinds;
         opt_Silent := false;
         opt_ReportingInfo := reportingInfo |} in
    (* get updates *)
    let upstreamURI := "replicated://" +:+ License_AppSlug kotsKinds in
    '(updates, err) ← call (kotspull_GetUpdates C upstreamURI getUpdatesOptions)
                           (EvGetUpdates upstreamURI getUpdatesOptions);
    if not_nil err then
      mret (0, errors_Wrap err "failed to get updates", removeArchiveDir)
    else
    (* update last updated at time *)
    t ← call (app_LastUpdateAtTime C (ID a)) (EvLastUpdateAtTime (ID a));
    if not_nil t then
      (* the source wraps [err], the result of GetUpdates, not [t] *)
      mret (0, errors_Wrap err "failed to update last updated at time",
            removeArchiveDir)
    else
    (* if there are updates, go routine it *)
    if bool_decide (length updates = 0%nat) then
      if negb deploy then mret (0, nil, removeArchiveDir) else
      (* ensure that the latest version is deployed *)
      '(allVersions, err) ← read (version_GetVersions C (ID a))
                                 (EvGetVersions (ID a));
      if not_nil err then
        mret (0, errors_Wrap err "failed to list app versions", removeArchiveDir)
      else
      if bool_decide (length allVersions = 0%nat) then
        mret (0, errors_New "no versions found", removeArchiveDir)
      else
      let latestVersion := last_version allVersions in
      '(downstreams, err) ← read (store_ListDownstreamsForApp C (ID a))
                                 (EvListDownstreams (ID a));
      if not_nil err then
        mret (0, errors_Wrap err "failed to list downstreams for app",
              removeArchiveDir)
      else
      match downstreams with
      | [] => panic "runtime error: index out of range [0] with length 0"
      | downstreams_0 :: _ =>
      '(downstreamParentSequence, err) ←
         read (store_GetCurrentParentSequence C (ID a) (ClusterID downstreams_0))
              (EvGetCurrentParentSequence (ID a) (ClusterID downstreams_0));
      if not_nil err then
        mret (0, errors_Wrap err "failed to get current downstream parent sequence",
              removeArchiveDir)
      else
      if bool_decide (Sequence latestVersion ≠ downstreamParentSequence) then
        err ← call (version_DeployVersion C (ID a) (Sequence latestVersion))
                   (EvDeployVersion (ID a) (Sequence latestVersion));
        if not_nil err then
          mret (0, errors_Wrap err "failed to deploy latest version",
                removeArchiveDir)
        else mret (0, nil, removeArchiveDir)
      else mret (0, nil, removeArchiveDir)
      end
    else
    let availableUpdates := Z.of_nat (length updates) in
    (* this is to avoid a race condition where the UI polls the task status
       before it is set by the goroutine *)
    let status := fmt_d availableUpdates +:+ " Updates available..." in
    err ← call (store_SetTaskStatus C "update-download" status "running")
               (EvSetTaskStatus "update-download" status "running");
    if not_nil err then
      mret (0, errors_Wrap err "failed to set task status", removeArchiveDir)
    else
    let removeArchiveDir := false in
    go (TaskStaging a archiveDir updates deploy skipPreflights isCLI);;
    mret (availableUpdates, nil, removeArchiveDir)).

(** The callback installed by [Configure] (lines 102-118), with the
    variables it captured. *)
Definition entryCallback (jobAppID jobAppSlug : string) : M W unit :=
  logger_Debug "checking updates for app";;
  '(availableUpdates, err) ← CheckForUpdates jobAppID false false false;
  if not_nil err then
    logger_Error (errors_Wrap err ("failed to check updates for app " +:+ jobAppSlug))
  else
  if bool_decide (availableUpdates > 0)
  then logger_Debug "updates found for app"
  else logger_Debug "no updates found for app".

End CheckForUpdates.

(** ** What a schedule text means to the scheduler

    A model of the standard five-field grammar of [robfig/cron] restricted to
    numeric fields (no month or weekday names, no [@] descriptors, no [TZ=]
    prefix): fields are separated by white space; a field is a comma
    separated list of ranges; a range is [*], [N] or [N-M], optionally
    followed by [/step], and [N/step] stands for [N-max/step].  [parse]
    answers [None] for a text this model does not cover or that the grammar
    refuses. *)

Module CronSpec.

Definition is_space (c : ascii) : bool :=
  bool_decide (c = " "%char) || bool_decide (c = "009"%char).

(** [strings.FieldsFunc]: the maximal runs of characters not satisfying
    [sep]. *)
Fixpoint fields_aux (sep : ascii -> bool) (cur : string) (s : string)
    : list string :=
  match s with
  | EmptyString => if bool_decide (cur = "") then [] else [String.rev cur]
  | String c s' =>
      if sep c
      then (if bool_decide (cur = "") then [] else [String.rev cur])
             ++ fields_aux sep "" s'
      else fields_aux sep (String c cur) s'
  end.

Definition fields (sep : ascii -> bool) (s : string) : list string :=
  fields_aux sep "" s.

(** [strings.Split] on one character: empty pieces are kept. *)
Fixpoint split_aux (sep : ascii) (cur : string) (s : string) : list string :=
  match s with
  | EmptyString => [String.rev cur]
  | String c s' =>
      if bool_decide (c = sep)
      then String.rev cur :: split_aux sep "" s'
      else split_aux sep (String c cur) s'
  end.

Definition split (sep : ascii) (s : string) : list string :=
  split_aux sep "" s.

Definition digit (c : ascii) : option Z :=
  let n := Z.of_nat (nat_of_ascii c) in
  if bool_decide (48 <= n <= 57) then Some (n - 48) else None.

Fixpoint parse_digits (acc : Z) (s : string) : option Z :=
  match s with
  | EmptyString => Some acc
  | String c s' =>
      match digit c with
      | Some d => parse_digits (10 * acc + d) s'
      | None => None
      end
  end.

Definition parse_int (s : string) : option Z :=
  if bool_decide (s = "") then None else parse_digits 0 s.

Record Field := { bits : list Z; star : bool }.

(** [getBits(min, max, step)] *)
Definition getBits (lo hi step : Z) : list Z :=
  filter (fun v => (v - lo) mod step = 0) (seqZ lo (hi - lo + 1)).

(** [getRange(expr, bounds)] *)
Definition getRange (lo hi : Z) (expr : string) : option Field :=
  let rangeAndStep := split "/" expr in
  let lowAndHigh := split "-" (default "" (head rangeAndStep)) in
  let singleDigit := bool_decide (length lowAndHigh = 1%nat) in
  let low := default "" (head lowAndHigh) in
  bounds ←
    (if bool_decide (low = "*") || bool_decide (low = "?")
     then Some (lo, hi, true)
     else
       start ← parse_int low;
       match lowAndHigh with
       | [_] => Some (start, start, false)
       | [_; high] => e ← parse_int high; Some (start, e, false)
       | _ => None
       end);
  let '(start, end_, extra) := bounds in
  stepped ←
    match rangeAndStep with
    | [_] => Some (1, end_, extra)
    | [_; st] =>
        step ← parse_int st;
        Some (step, (if singleDigit then hi else end_),
              (if bool_decide (step > 1) then false else extra))
    | _ => None
    end;
  let '(step, end_, extra) := stepped in
  if bool_decide (start < lo) then None else
  if bool_decide (end_ > hi) then None else
  if bool_decide (start > end_) then None else
  if bool_decide (step = 0) then None else
  Some {| bits := getBits start end_ step; star := extra |}.

(** [getField(field, bounds)] *)
Fixpoint getRanges (lo hi : Z) (exprs : list string) : option Field :=
  match exprs with
  | [] => Some {| bits := []; star := false |}
  | e :: rest =>
      f ← getRange lo hi e;
      g ← getRanges lo hi rest;
      Some {| bits := bits f ++ bits g; star := star f || star g |}
  end.

Definition getField (lo hi : Z) (field : string) : option Field :=
  getRanges lo hi (fields (fun c => bool_decide (c = ","%char)) field).

Record Schedule := {
  sMinute : Field; sHour : Field; sDom : Field; sMonth : Field; sDow : Field
}.

Definition parse (spec : string) : option Schedule :=
  match fields is_space spec with
  | [mi; ho; dom; mon; dow] =>
      mi ← getField 0 59 mi;
      ho ← getField 0 23 ho;
      dom ← getField 1 31 dom;
      mon ← getField 1 12 mon;
      dow ← getField 0 6 dow;
      Some {| sMinute := mi; sHour := ho; sDom := dom; sMonth := mon;
              sDow := dow |}
  | _ => None
  end.

Definition has (f : Field) (v : Z) : bool := bool_decide (v ∈ bits f).

(** [dayMatches] *)
Definition dayMatches (s : Schedule) (dom dow : Z) : bool :=
  if star (sDom s) || star (sDow s)
  then has (sDom s) dom && has (sDow s) dow
  else has (sDom s) dom || has (sDow s) dow.

(** The schedule fires at the start of the minute [hour:minute] of the day
    with the given month, day of the month and day of the week. *)
Definition fires (s : Schedule) (month dom dow hour minute : Z) : bool :=
  has (sMonth s) month && dayMatches s dom dow
  && has (sHour s) hour && has (sMinute s) minute.

End CronSpec.

(** ** A concrete world: stub collaborators with canned answers

    Used to run the definitions on concrete inputs.  An operation named in
    [failing] answers with an error and leaves the world as it is. *)

Module Stub.

Record World := {
  status : string;
  apps : list App;
  now : Time;
  pending : list Update;
  versions : list AppVersion;
  downstreams : list Downstream;
  parentSequence : Z;
  failing : list string;
  badCursors : list string
}.

Definition fails (op : string) (w : World) : error :=
  if bool_decide (op ∈ failing w) then Some (op +:+ " failed") else None.

Definition set_status (st : string) (w : World) : World :=
  {| status := st; apps := apps w; now := now w; pending := pending w;
     versions := versions w; downstreams := downstreams w;
     parentSequence := parentSequence w; failing := failing w;
     badCursors := badCursors w |}.

Definition add_version (w : World) : Z * World :=
  let sequence := Z.of_nat (length (versions w)) in
  (sequence,
   {| status := status w; apps := apps w; now := now w; pending := pending w;
      versions := versions w ++ [{| Sequence := sequence |}];
      downstreams := downstreams w; parentSequence := parentSequence w;
      failing := failing w; badCursors := badCursors w |}).

Definition set_parent (sequence : Z) (w : World) : World :=
  {| status := status w; apps := apps w; now := now w; pending := pending w;
     versions := versions w; downstreams := downstreams w;
     parentSequence := sequence; failing := failing w;
     badCursors := badCursors w |}.

Definition noApp : App :=
  {| ID := ""; Slug := ""; IsAirgap := false; UpdateCheckerSpec := "";
     CurrentSequence := 0 |}.

Definition noKinds : KotsKinds :=
  {| Installation_UpdateCursor := ""; Installation_ChannelID := "";
     Installation_ChannelName := ""; Installation_VersionLabel := "";
     License_AppSlug := "" |}.

Definition getApp (appID : string) (w : World) : App * error :=
  match List.find (fun a => bool_decide (ID a = appID)) (apps w) with
  | Some a => (a, fails "GetApp" w)
  | None => (noApp, Some "app not found")
  end.

Definition write (op : string) (f : World -> World) (w : World)
    : error * World :=
  match fails op w with
  | Some e => (Some e, w)
  | None => (None, f w)
  end.

Definition downloadUpdate (cursor : string) (w : World)
    : (Z * error) * World :=
  if bool_decide (cursor ∈ badCursors w)
  then ((0, Some ("failed to download " +:+ cursor)), w)
  else let '(sequence, w') := add_version w in ((sequence, None), w').

(** The numeric model [CronSpec.parse] stands in for the scheduler's
    parser. *)
Definition parseSpec (spec : string) : error :=
  match CronSpec.parse spec with
  | Some _ => None
  | None => Some ("failed to parse " +:+ spec)
  end.

Definition collaborators : Collaborators World :=
  {| store_ListInstalledApps := fun w => (apps w, fails "ListInstalledApps" w);
     store_GetApp := getApp;
     store_GetTaskStatus := fun _ w => (status w, "", fails "GetTaskStatus" w);
     store_ClearTaskStatus := fun _ => write "ClearTaskStatus" (set_status "");
     store_SetTaskStatus := fun _ _ st => write "SetTaskStatus" (set_status st);
     store_GetAppVersionArchive := fun _ _ _ => write "GetAppVersionArchive" id;
     store_GetLatestLicenseForApp :=
       fun _ w => ("license", fails "GetLatestLicenseForApp" w);
     store_ListDownstreamsForApp :=
       fun _ w => (downstreams w, fails "ListDownstreamsForApp" w);
     store_GetCurrentParentSequence :=
       fun _ _ w => (parentSequence w, fails "GetCurrentParentSequence" w);
     license_Sync := fun _ _ _ w => ("license", false, fails "Sync" w, w);
     ioutil_TempDir := fun _ _ w => ("/tmp/kotsadm1", fails "TempDir" w, w);
     os_RemoveAll := fun _ w => w;
     kotsutil_LoadKotsKindsFromPath :=
       fun _ w => (noKinds, fails "LoadKotsKindsFromPath" w);
     reporting_GetReportingInfo := fun _ _ => "info";
     kotspull_GetUpdates := fun _ _ w => (pending w, fails "GetUpdates" w, w);
     app_LastUpdateAtTime := fun _ => write "LastUpdateAtTime" id;
     version_GetVersions := fun _ w => (versions w, fails "GetVersions" w);
     version_DeployVersion := fun _ sequence => write "DeployVersion" (set_parent sequence);
     upstream_DownloadUpdate := fun _ _ cursor _ => downloadUpdate cursor;
     reporting_ReportAppInfo := fun _ _ _ _ => write "ReportAppInfo" id;
     time_Now := now;
     cron_Parse := parseSpec |}.

Definition app1 (spec : string) : App :=
  {| ID := "app1"; Slug := "my-app"; IsAirgap := false;
     UpdateCheckerSpec := spec; CurrentSequence := 2 |}.

(** One application, three version records, one downstream at sequence
    [parent]. *)
Definition world0 (spec st : string) (updates : list Update) (parent : Z)
    (failing badCursors : list string) : World :=
  {| status := st; apps := [app1 spec];
     now := {| wallSeconds := 1000000000 |};
     pending := updates;
     versions := [{| Sequence := 0 |}; {| Sequence := 1 |}; {| Sequence := 2 |}];
     downstreams := [{| ClusterID := "this-cluster" |}];
     parentSequence := parent; failing := failing;
     badCursors := badCursors |}.

Definition with_versions (vs : list AppVersion) (w : World) : World :=
  {| status := status w; apps := apps w; now := now w; pending := pending w;
     versions := vs; downstreams := downstreams w;
     parentSequence := parentSequence w; failing := failing w;
     badCursors := badCursors w |}.


Definition without_downstreams (w : World) : World :=
  {| status := status w; apps := apps w; now := now w; pending := pending w;
     versions := versions w; downstreams := [];
     parentSequence := parentSequence w; failing := failing w;
     badCursors := badCursors w |}.


Definition initial (w : World) : State World :=
  {| world := w; jobs := ∅; heap := ∅; mtx := false |}.

End Stub.

(** * Properties *)

(** ** Vocabulary of the statements *)

(** The events of given kinds in a trace. *)

Definition deploys (tr : list Event) : list (string * Z) :=
  omap (fun e => match e with
                 | EvDeployVersion appID sequence _ => Some (appID, sequence)
                 | _ => None
                 end) tr.

Definition downloads (tr : list Event) : list (string * (Z * error)) :=
  omap (fun e => match e with
                 | EvDownloadUpdate _ _ cursor _ r => Some (cursor, r)
                 | _ => None
                 end) tr.

Definition spawned (tr : list Event) : list Task :=
  omap (fun e => match e with EvGo t => Some t | _ => None end) tr.

(** The highest sequence among version records. *)
Definition highest_sequence (allVersions : list AppVersion) : Z :=
  match allVersions with
  | [] => 0
  | v :: rest => foldr (fun x m => Z.max (Sequence x) m) (Sequence v) rest
  end.

(** The synchronous failures of a check: license sync, staging of the
    archive of the current version, upstream query, last-checked write. *)
Definition sync_failure (e : Event) : Prop :=
  match e with
  | EvLicenseSync _ (_, _, Some _)
  | EvGetAppVersionArchive _ _ _ (Some _)
  | EvLoadKotsKinds _ (_, Some _)
  | EvGetUpdates _ _ (_, Some _)
  | EvLastUpdateAtTime _ (Some _) => True
  | _ => False
  end.

(** The body of the loop of the staging pipeline (lines 277-299), for a
    batch of [n] releases: [stagingTask] runs it with [n = len(updates)]. *)
Definition stagingBody {W} (C : Collaborators W) (a : App)
    (archiveDir : string) (n : Z) (deploy skipPreflights isCLI : bool)
    (index : Z) (update : Update) : M W unit :=
  '(sequence, err) ←
     call (upstream_DownloadUpdate C (ID a) archiveDir (Cursor update)
             skipPreflights)
          (EvDownloadUpdate (ID a) archiveDir (Cursor update) skipPreflights);
  if not_nil err then logger_Error err else
  if deploy && bool_decide (index = n - 1) then
    err ← call (version_DeployVersion C (ID a) sequence)
               (EvDeployVersion (ID a) sequence);
    (if not_nil err then logger_Error err else mret tt);;
    go (TaskReport (ID a) sequence skipPreflights isCLI)
  else mret tt.

(** The deploy calls a pipeline may make, given its downloads: one, for the
    sequence returned by the last download, when that download succeeded and
    [deploy] is set. *)
Definition deploy_of_last (a : App) (deploy : bool)
    (dl : list (string * (Z * error))) : list (string * Z) :=
  match last dl with
  | Some (_, (sequence, None)) => if deploy then [(ID a, sequence)] else []
  | _ => []
  end.

(** Every failed download is followed at once by the log of its error. *)
Definition failure_logged (tr : list Event) : Prop :=
  forall id dir cursor sp sequence e,
    EvDownloadUpdate id dir cursor sp (sequence, Some e) ∈ tr ->
    exists before after,
      tr = before ++
           EvDownloadUpdate id dir cursor sp (sequence, Some e)
           :: EvLog "error" e :: after.

(** Every job of the registry points to a scheduler object. *)
Definition registry_wf {W} (s : State W) : Prop :=
  forall appID job, jobs s !! appID = Some job -> is_Some (heap s !! job).

(** The schedule text of the default cadence for minute [m] and hour offset
    [h]. *)
Definition default_text (m h : Z) : string :=
  fmt_d m +:+ " " +:+ fmt_d h +:+ "/4 * * *".

(** The schedule text [Configure] installs for a cadence that is not
    disabled, in world [w]. *)
Definition resolved {W} (C : Collaborators W) (w : W) (cronSpec : string)
    : string :=
  if decide (cronSpec = "@default")
  then default_text (Minute (time_Now C w)) (Hour (time_Now C w) mod 4)
  else cronSpec.

Definition disabled (cronSpec : string) : Prop :=
  cronSpec = "@never" ∨ cronSpec = "".

(** The entries that fire for an application: those of its job, while the
    job runs. *)
Definition active_triggers {W} (s : State W) (appID : string) : list Entry :=
  match jobs s !! appID with
  | Some job =>
      match heap s !! job with
      | Some c => if running c then entries c else []
      | None => []
      end
  | None => []
  end.

(** The schedule that fires at minute [m] of the hours [h], [h+4], ...,
    [h+20] of every day. *)
Definition every_four_hours (m h : Z) : CronSpec.Schedule :=
  {| CronSpec.sMinute := {| CronSpec.bits := [m]; CronSpec.star := false |};
     CronSpec.sHour :=
       {| CronSpec.bits := (fun k => h + 4 * k) <$> seqZ 0 6;
          CronSpec.star := false |};
     CronSpec.sDom := {| CronSpec.bits := seqZ 1 31; CronSpec.star := true |};
     CronSpec.sMonth := {| CronSpec.bits := seqZ 1 12; CronSpec.star := true |};
     CronSpec.sDow := {| CronSpec.bits := seqZ 0 7; CronSpec.star := true |} |}.

#[global] Instance Field_eq_dec : EqDecision CronSpec.Field.
Proof. solve_decision. Defined.

#[global] Instance Schedule_eq_dec : EqDecision CronSpec.Schedule.
Proof. solve_decision. Defined.

(** The default text parses to [every_four_hours], for every minute and
    every hour offset. *)
Definition default_table_ok : bool :=
  forallb (fun m =>
    forallb (fun h =>
      bool_decide (CronSpec.parse (default_text m h)
                   = Some (every_four_hours m h)))
      (seqZ 0 4))
    (seqZ 0 60).

(** ** Further vocabulary *)

(** The directories removed in a trace. *)
Definition removals (tr : list Event) : list string :=
  omap (fun e => match e with EvRemoveAll path => Some path | _ => None end) tr.

(** The applications loaded from the store in a trace. *)
Definition loads (tr : list Event) : list string :=
  omap (fun e => match e with EvGetApp appID _ => Some appID | _ => None end) tr.

(** The lines logged at a level in a trace. *)
Definition logged (level : string) (tr : list Event) : list string :=
  omap (fun e => match e with
                 | EvLog l message =>
                     if decide (l = level) then Some message else None
                 | _ => None
                 end) tr.

(** The report started for a deploy call of the staging pipeline. *)
Definition report_of (skipPreflights isCLI : bool) (d : string * Z) : Task :=
  TaskReport d.1 d.2 skipPreflights isCLI.

(** No two applications share a scheduler object. *)
Definition registry_inj {W} (s : State W) : Prop :=
  forall id1 id2 job,
    jobs s !! id1 = Some job -> jobs s !! id2 = Some job -> id1 = id2.

(** [job.Stop()] on a scheduler object. *)
Definition stopped (c : Cron) : Cron :=
  {| entries := entries c; running := false; nextID := nextID c |}.

(** The calls the staging pipeline makes. *)
Definition staging_event (e : Event) : Prop :=
  match e with
  | EvDownloadUpdate _ _ _ _ _ | EvDeployVersion _ _ _ | EvLog _ _
  | EvGo _ | EvRemoveAll _ => True
  | _ => False
  end.

(** ** The synchronous steps of a check

    Steps 1 to 7 of [CheckForUpdates] (lines 146-225) all succeed from world
    [w0]: the status is read and is not "running", it is cleared, the
    application is loaded, its license synced, the application loaded again
    as [a], the temporary directory [dir] made, the archive of the current
    version staged and parsed, the latest license read, the upstream queried
    with answer [updates], and the last-checked time written, leaving world
    [w]. *)
Definition discovery_succeeds {W} (C : Collaborators W) (appID : string)
    (w0 : W) (a : App) (dir : string) (updates : list Update) (w : W) : Prop :=
  exists (st message : string) (w1 : W) (a0 : App) (l0 : License) (synced : bool)
         (w2 w3 w4 : W) (kotsKinds : KotsKinds) (latestLicense : License)
         (w5 : W),
    store_GetTaskStatus C "update-download" w0 = (st, message, nil) /\
    st ≠ "running" /\
    store_ClearTaskStatus C "update-download" w0 = (nil, w1) /\
    store_GetApp C appID w1 = (a0, nil) /\
    license_Sync C a0 "" false w1 = ((l0, synced, nil), w2) /\
    store_GetApp C appID w2 = (a, nil) /\
    ioutil_TempDir C "" "kotsadm" w2 = ((dir, nil), w3) /\
    store_GetAppVersionArchive C (ID a) (CurrentSequence a) dir w3 = (nil, w4) /\
    kotsutil_LoadKotsKindsFromPath C dir w4 = (kotsKinds, nil) /\
    store_GetLatestLicenseForApp C (ID a) w4 = (latestLicense, nil) /\
    kotspull_GetUpdates C ("replicated://" +:+ License_AppSlug kotsKinds)
      {| opt_License := latestLicense;
         opt_CurrentCursor := Installation_UpdateCursor kotsKinds;
         opt_CurrentChannelID := Installation_ChannelID kotsKinds;
         opt_CurrentChannelName := Installation_ChannelName kotsKinds;
         opt_CurrentVersionLabel := Installation_VersionLabel kotsKinds;
         opt_Silent := false;
         opt_ReportingInfo := reporting_GetReportingInfo C (ID a) w4 |} w4
    = ((updates, nil), w5) /\
    app_LastUpdateAtTime C (ID a) w5 = (nil, w).

(** The step text the source wraps the error of each call with; the error
    of the last-checked write has no entry. *)
Definition failure_of (e : Event) : option (string * string) :=
  match e with
  | EvGetTaskStatus _ (_, _, Some c) => Some ("failed to get task status", c)
  | EvClearTaskStatus _ (Some c) => Some ("failed to clear task status", c)
  | EvGetApp _ (_, Some c) => Some ("failed to get app", c)
  | EvLicenseSync _ (_, _, Some c) => Some ("failed to sync license", c)
  | EvTempDir (_, Some c) => Some ("failed to create temp dir", c)
  | EvGetAppVersionArchive _ _ _ (Some c) =>
      Some ("failed to get app version archive", c)
  | EvLoadKotsKinds _ (_, Some c) =>
      Some ("failed to load kotskinds from path", c)
  | EvGetLatestLicense _ (_, Some c) => Some ("failed to get latest license", c)
  | EvGetUpdates _ _ (_, Some c) => Some ("failed to get updates", c)
  | EvGetVersions _ (_, Some c) => Some ("failed to list app versions", c)
  | EvListDownstreams _ (_, Some c) =>
      Some ("failed to list downstreams for app", c)
  | EvGetCurrentParentSequence _ _ (_, Some c) =>
      Some ("failed to get current downstream parent sequence", c)
  | EvDeployVersion _ _ (Some c) => Some ("failed to deploy latest version", c)
  | EvSetTaskStatus _ _ _ (Some c) => Some ("failed to set task status", c)
  | _ => None
  end.

(** The line the callback of [Configure] ends with, given what the check
    returned. *)
Definition callback_log (capturedSlug : string) (result : Z * error) : Event :=
  match result with
  | (_, Some e) =>
      EvLog "error"
        ("failed to check updates for app " +:+ capturedSlug +:+ ": " +:+ e)
  | (availableUpdates, None) =>
      if bool_decide (availableUpdates > 0)
      then EvLog "debug" "updates found for app"
      else EvLog "debug" "no updates found for app"
  end.

(** ** Proof tools: running a computation symbolically *)

Ltac unfold_m :=
  unfold mbind, M_bind, mret, M_ret, bind, ret, read, call, emit, go,
    logger_Debug, logger_Error, panic, defer_reading, defer, RemoveAll,
    not_nil, negb in *.

(** Case analysis on the innermost stuck scrutinee. *)
Ltac step :=
  match goal with
  | |- context [match ?x with _ => _ end] =>
      lazymatch x with
      | context [match _ with _ => _ end] => fail
      | _ => destruct x eqn:?
      end
  end; simpl in *.

(** Membership of an event in an explicit trace. *)
Ltac in_trace H :=
  repeat (apply elem_of_cons in H as [H | H];
          [try discriminate H; simplify_eq/= |]);
  try (apply elem_of_nil in H; contradiction).

Ltac not_in_trace :=
  let H := fresh "Hin" in
  intros H; in_trace H.

Ltac here := repeat first [apply list_elem_of_here | apply list_elem_of_further].

Ltac decided :=
  repeat match goal with
         | H : bool_decide _ = true |- _ => apply bool_decide_eq_true in H
         | H : bool_decide _ = false |- _ => apply bool_decide_eq_false in H
         end.

(** Runs the synchronous steps with the answers of [discovery_succeeds]. *)
Ltac run_discovery H :=
  destruct H as (st & message & w1 & a0 & l0 & synced & w2 & w3 & w4 & kotsKinds
                 & latestLicense & w5 & Hst & Hnot & Hclear & Hget0 & Hsync
                 & Hget & Hdir & Harchive & Hkinds & Hlicense & Hupdates & Hlast);
  unfold CheckForUpdates; unfold_m; unfold nil in *;
  rewrite Hst; simpl;
  destruct (decide (st = "running")) as [Hrunning | _];
    [by destruct Hnot |];
  rewrite Hclear; simpl; rewrite Hget0; simpl; rewrite Hsync; simpl;
  rewrite Hget; simpl; rewrite Hdir; simpl; rewrite Harchive; simpl;
  rewrite Hkinds; simpl; rewrite Hlicense; simpl; rewrite Hupdates; simpl;
  rewrite Hlast; simpl.

(** Looks in an explicit trace for the call whose error was returned. *)
Ltac failing_event :=
  match goal with
  | |- exists ev step cause, ev ∈ ?tr /\ _ =>
      let rec go l :=
        lazymatch l with
        | ?x :: ?l' =>
            first [ exists x; do 2 eexists;
                    split; [here | split; reflexivity]
                  | go l' ]
        end in
      go tr
  end.

(** ** The highest sequence is that of the last record of an ordered list *)

Lemma highest_sequence_bound (vs : list AppVersion) (v : AppVersion) :
  v ∈ vs -> Sequence v <= highest_sequence vs.
Proof.
  destruct vs as [|v0 rest]; [intros H; by apply elem_of_nil in H |].
  simpl. intros [-> | Hin]%elem_of_cons.
  - induction rest as [|x rest IH]; simpl; lia.
  - induction rest as [|x rest IH]; simpl.
    + by apply elem_of_nil in Hin.
    + apply elem_of_cons in Hin as [-> | Hin]; [lia |].
      specialize (IH Hin). lia.
Qed.

Lemma last_version_sorted (vs : list AppVersion) :
  vs ≠ [] ->
  Sorted Z.le (map Sequence vs) ->
  Sequence (last_version vs) = highest_sequence vs.
Proof.
  destruct vs as [|v0 rest]; [done |]. intros _ Hs.
  apply Sorted_StronglySorted in Hs; [| intros ? ? ?; lia].
  unfold last_version. revert v0 Hs.
  induction rest as [|x rest IH]; intros v0 Hs; [reflexivity |].
  change (List.last (v0 :: x :: rest) {| Sequence := 0 |})
    with (List.last (x :: rest) {| Sequence := 0 |}).
  inversion Hs as [|? ? Hs' Hall]; subst.
  rewrite (IH x Hs'). simpl.
  assert (Hle : Sequence v0 <= Sequence x) by (inversion Hall; assumption).
  clear IH Hs Hs' Hall. revert v0 x Hle.
  induction rest as [|y rest IH]; intros v0 x Hle; simpl; [lia |].
  specialize (IH v0 x Hle). simpl in IH. lia.
Qed.

(** ** [CheckForUpdates] *)

Section CheckForUpdatesFacts.
Context {W : Type} (C : Collaborators W).

(** C1. While the status of "update-download" reads "running", a call
    returns [(0, nil)] at once: the status read and a debug line are its
    whole trace, so no license sync, no archive of the current version and
    no upstream query take place, and the state is left as it was. *)
Theorem CheckForUpdates_already_running
    (appID : string) (deploy skipPreflights isCLI : bool) (s : State W)
    (message : string) :
  store_GetTaskStatus C "update-download" (world s) = ("running", message, nil) ->
  CheckForUpdates C appID deploy skipPreflights isCLI s =
    {| outcome := Returned (0, nil);
       final := s;
       events :=
         [EvGetTaskStatus "update-download" ("running", message, nil);
          EvLog "debug"
            "update-download is already running, not starting a new one"] |}.
Proof.
  intros Hst. unfold CheckForUpdates. unfold_m. rewrite Hst. simpl.
  destruct (decide ("running" = "running")) as [_ | Hne]; [reflexivity | done].
Qed.


(** C3, as the code has it.  With [deploy] set, the synchronous steps
    done with no release found, a list of versions that is not empty and
    the parent sequence of the first downstream read: the sequence at
    stake is that of the last record of the list.  When it equals the
    parent sequence no deploy call is made and the call returns
    [(0, nil)]; when it differs exactly one deploy call is made, for that
    sequence, and the call returns 0 with the error of that call, wrapped,
    or [nil].  The last record carries the highest sequence when the list is
    in ascending order of sequence. *)
Theorem CheckForUpdates_reassert_last_version
    (appID : string) (skipPreflights isCLI : bool) (s : State W)
    (a : App) (dir : string) (w : W) (allVersions : list AppVersion)
    (d : Downstream) (ds : list Downstream) (parent : Z) :
  discovery_succeeds C appID (world s) a dir [] w ->
  version_GetVersions C (ID a) w = (allVersions, nil) ->
  allVersions ≠ [] ->
  store_ListDownstreamsForApp C (ID a) w = (d :: ds, nil) ->
  store_GetCurrentParentSequence C (ID a) (ClusterID d) w = (parent, nil) ->
  let r := CheckForUpdates C appID true skipPreflights isCLI s in
  let latest := Sequence (last_version allVersions) in
  (latest = parent ->
     deploys (events r) = [] /\ outcome r = Returned (0, nil)) /\
  (latest ≠ parent ->
     deploys (events r) = [(ID a, latest)] /\
     exists res,
       EvDeployVersion (ID a) latest res ∈ events r /\
       res = (version_DeployVersion C (ID a) latest w).1 /\
       outcome r =
         Returned (0, errors_Wrap res "failed to deploy latest version")) /\
  (Sorted Z.le (Sequence <$> allVersions) ->
     latest = highest_sequence allVersions).
Proof.
  intros Hpath Hversions Hne Hdown Hparent r latest. subst r.
  assert (Hlen : bool_decide (length allVersions = 0%nat) = false).
  { apply bool_decide_eq_false_2. by destruct allVersions. }
  split_and!.
  - intros Heq. subst latest. remember (last_version allVersions) as lv.
    run_discovery Hpath.
    rewrite Hversions. simpl. rewrite Hlen, <-Heqlv. simpl.
    rewrite Hdown. simpl. rewrite Hparent. simpl.
    rewrite bool_decide_eq_false_2 by (intros Hx; by apply Hx).
    done.
  - intros Hneq. subst latest. remember (last_version allVersions) as lv.
    run_discovery Hpath.
    rewrite Hversions. simpl. rewrite Hlen, <-Heqlv. simpl.
    rewrite Hdown. simpl. rewrite Hparent. simpl.
    rewrite bool_decide_eq_true_2 by done. simpl.
    destruct (version_DeployVersion C (ID a) (Sequence lv) w) as [[e |] w'];
      simpl; (split; [reflexivity |]); eexists; (split; [here | done]).
  - intros Hsorted. by apply last_version_sorted.
Qed.

(** A call panics exactly when the list of downstreams came back empty;
    the list is only read with [deploy] set after zero releases were
    found; and of a list that is not empty the cluster of the first element
    is the one asked for its parent sequence. *)
Lemma CheckForUpdates_panics_iff_no_downstream
    (appID : string) (deploy skipPreflights isCLI : bool) (s : State W) :
  let r := CheckForUpdates C appID deploy skipPreflights isCLI s in
  ((exists message, outcome r = Panicked message) <->
   (exists id, EvListDownstreams id ([], nil) ∈ events r)) /\
  (forall id res, EvListDownstreams id res ∈ events r ->
     deploy = true /\
     exists upstreamURI o, EvGetUpdates upstreamURI o ([], nil) ∈ events r) /\
  (forall id d ds, EvListDownstreams id (d :: ds, nil) ∈ events r ->
     exists res, EvGetCurrentParentSequence id (ClusterID d) res ∈ events r) /\
  outcome r ≠ Blocked.
Proof.
  intros r. subst r. unfold CheckForUpdates. unfold_m. simpl.
  repeat step; decided.
  all: split_and!; try done.
  all: try (split; [intros [? ?]; discriminate | intros [? Hin]; by in_trace Hin]).
  all: try (intros ? ? Hin; by in_trace Hin).
  all: try (intros ? ? ? Hin; by in_trace Hin).
  all: try (split; [intros _; eexists; here | eauto]).
  all: try (intros ? ? Hin; in_trace Hin; split; [reflexivity |];
            match goal with
            | H : length ?l = 0%nat |- _ => destruct l; [| done]
            end; do 2 eexists; here).
  all: try (intros ? ? ? Hin; in_trace Hin; eexists; here).
Qed.

(** C10. On the path with [deploy] set, the synchronous steps done with
    no release found and a list of versions that is not empty, the list of
    downstreams is read and its first element is taken without a check of
    its length: when the list is empty the call panics with an index out
    of range; when it is not, the cluster of its first element is the one
    asked for its parent sequence and the call returns.  On any path, a
    call panics exactly when the list came back empty, and the list is only
    read with [deploy] set after zero releases were found. *)
Theorem CheckForUpdates_first_downstream
    (appID : string) (deploy skipPreflights isCLI : bool) (s : State W) :
  let r := CheckForUpdates C appID deploy skipPreflights isCLI s in
  (forall a dir w allVersions downstreams,
     deploy = true ->
     discovery_succeeds C appID (world s) a dir [] w ->
     version_GetVersions C (ID a) w = (allVersions, nil) ->
     allVersions ≠ [] ->
     store_ListDownstreamsForApp C (ID a) w = (downstreams, nil) ->
     EvListDownstreams (ID a) (downstreams, nil) ∈ events r /\
     match downstreams with
     | [] =>
         outcome r =
           Panicked "runtime error: index out of range [0] with length 0"
     | d :: _ =>
         EvGetCurrentParentSequence (ID a) (ClusterID d)
           (store_GetCurrentParentSequence C (ID a) (ClusterID d) w)
         ∈ events r /\
         exists n err, outcome r = Returned (n, err)
     end) /\
  ((exists message, outcome r = Panicked message) <->
   (exists id, EvListDownstreams id ([], nil) ∈ events r)) /\
  (forall id res, EvListDownstreams id res ∈ events r ->
     deploy = true /\
     exists upstreamURI o, EvGetUpdates upstreamURI o ([], nil) ∈ events r) /\
  (forall id d ds, EvListDownstreams id (d :: ds, nil) ∈ events r ->
     exists res, EvGetCurrentParentSequence id (ClusterID d) res ∈ events r) /\
  outcome r ≠ Blocked.
Proof.
  intros r. split; [| apply CheckForUpdates_panics_iff_no_downstream].
  subst r. intros a dir w allVersions downstreams -> Hpath Hversions Hne Hdown.
  assert (Hlen : bool_decide (length allVersions = 0%nat) = false).
  { apply bool_decide_eq_false_2. by destruct allVersions. }
  remember (last_version allVersions) as lv.
  run_discovery Hpath.
  rewrite Hversions. simpl. rewrite Hlen, <-Heqlv. simpl.
  rewrite Hdown. simpl.
  destruct downstreams as [|d ds]; simpl.
  - split; [here | reflexivity].
  - repeat step; (split; [here | split; [here | eauto]]).
Qed.

(** C6, as the code has it.  When the write of the last-checked time
    fails the check stops there: the call returns with a count of 0, the
    failed write and the removal of the temporary directory are the last
    two events of the run, and no deploy, no status write and no staging
    follow. *)
Theorem CheckForUpdates_last_checked_failure_aborts
    (appID : string) (deploy skipPreflights isCLI : bool) (s : State W)
    (id e : string) :
  let r := CheckForUpdates C appID deploy skipPreflights isCLI s in
  EvLastUpdateAtTime id (Some e) ∈ events r ->
  (exists err, outcome r = Returned (0, err)) /\
  (exists dir before,
     reverse (events r) =
       EvRemoveAll dir :: EvLastUpdateAtTime id (Some e) :: before) /\
  deploys (events r) = [] /\
  spawned (events r) = [] /\
  (forall i m st res, EvSetTaskStatus i m st res ∉ events r).
Proof.
  intros r. subst r. unfold CheckForUpdates. unfold_m. simpl.
  repeat step; intros Hin; in_trace Hin.
  split_and!; eauto.
  intros ? ? ? ?. not_in_trace.
Qed.

(** C7. A call that returns an error has made no successful write of the
    status and started no staging; after any synchronous failure the call
    returns with a count of 0 without any write of the status at all; and
    the status is only written, as "running", once the upstream query has
    answered with at least one release. *)
Theorem CheckForUpdates_error_gate_not_set
    (appID : string) (deploy skipPreflights isCLI : bool) (s : State W) :
  let r := CheckForUpdates C appID deploy skipPreflights isCLI s in
  (forall n e, outcome r = Returned (n, Some e) ->
     n = 0 /\ spawned (events r) = [] /\
     forall i m st, EvSetTaskStatus i m st nil ∉ events r) /\
  (forall ev, ev ∈ events r -> sync_failure ev ->
     (exists err, outcome r = Returned (0, err)) /\
     spawned (events r) = [] /\
     forall i m st res, EvSetTaskStatus i m st res ∉ events r) /\
  (forall i m st res, EvSetTaskStatus i m st res ∈ events r ->
     st = "running" /\
     exists upstreamURI o updates,
       EvGetUpdates upstreamURI o (updates, nil) ∈ events r /\ updates ≠ []).
Proof.
  intros r. subst r. unfold CheckForUpdates. unfold_m. simpl.
  repeat step; decided.
  all: split_and!.
  all: try (intros ? ? [= <- ?]; split_and!; try done; intros ? ? ?; not_in_trace).
  all: try (intros ? ? [=]).
  all: try (intros ev Hin Hf; in_trace Hin; simpl in Hf; try done;
            split_and!; eauto; intros ? ? ? ?; not_in_trace).
  all: try (intros ? ? ? ? Hin; by in_trace Hin).
  all: intros ? ? ? ? Hin; in_trace Hin; split; [reflexivity |];
       do 3 eexists; (split; [here |]); intros ->; done.
Qed.

(** X8. The batch handed to the staging pipeline is the answer of the
    upstream query, as it came, together with the flags of the call; the
    call starts no other task and returns the length of the batch. *)
Lemma CheckForUpdates_hands_batch
    (appID : string) (deploy skipPreflights isCLI : bool) (s : State W)
    (t : Task) :
  let r := CheckForUpdates C appID deploy skipPreflights isCLI s in
  t ∈ spawned (events r) ->
  exists a archiveDir updates upstreamURI o,
    t = TaskStaging a archiveDir updates deploy skipPreflights isCLI /\
    spawned (events r) = [t] /\
    EvGetUpdates upstreamURI o (updates, nil) ∈ events r /\
    outcome r = Returned (Z.of_nat (length updates), nil).
Proof.
  intros r. subst r. unfold CheckForUpdates. unfold_m. simpl.
  repeat step; intros Hin; in_trace Hin.
  do 5 eexists. split_and!; try reflexivity. here.
Qed.

End CheckForUpdatesFacts.

(** ** The staging pipeline *)

Section StagingFacts.
Context {W : Type} (C : Collaborators W).

Lemma failure_logged_app (tr1 tr2 : list Event) :
  failure_logged tr1 -> failure_logged tr2 -> failure_logged (tr1 ++ tr2).
Proof.
  intros H1 H2 id dir cursor sp sequence e [Hin | Hin]%elem_of_app.
  - destruct (H1 _ _ _ _ _ _ Hin) as (before & after & ->).
    exists before, (after ++ tr2). by rewrite <-(assoc_L (++)).
  - destruct (H2 _ _ _ _ _ _ Hin) as (before & after & ->).
    exists (tr1 ++ before), after. by rewrite <-(assoc_L (++)).
Qed.

Lemma bind_returned {A B} (m : M W A) (k : A -> M W B) (s s1 : State W)
    (a : A) (t1 : list Event) :
  m s = {| outcome := Returned a; final := s1; events := t1 |} ->
  bind m k s =
    {| outcome := outcome (k a s1); final := final (k a s1);
       events := t1 ++ events (k a s1) |}.
Proof. intros Hm. unfold bind. rewrite Hm. by destruct (k a s1). Qed.

(** One turn of the loop: one download; a failed one is logged; a deploy
    call only in the last turn, with [deploy] set, for the sequence the
    download returned. *)
Lemma stagingBody_run (a : App) (archiveDir : string) (n : Z)
    (deploy skipPreflights isCLI : bool) (index : Z) (u : Update)
    (s : State W) :
  exists s1 tr res,
    stagingBody C a archiveDir n deploy skipPreflights isCLI index u s =
      {| outcome := Returned tt; final := s1; events := tr |} /\
    downloads tr = [(Cursor u, res)] /\
    failure_logged tr /\
    deploys tr =
      if bool_decide (index = n - 1)
      then deploy_of_last a deploy [(Cursor u, res)] else [].
Proof.
  unfold stagingBody. unfold_m. unfold andb.
  repeat step; do 3 eexists; (split; [reflexivity |]); simpl;
    (split; [reflexivity |]);
    (split; [| done]).
  all: intros ? ? ? ? ? ? Hin; in_trace Hin.
  all: by eexists [], _.
Qed.

Lemma staging_loop (a : App) (archiveDir : string) (n : Z)
    (deploy skipPreflights isCLI : bool) (l : list Update) :
  forall (index : Z) (s : State W),
    index + Z.of_nat (length l) = n ->
    let r := for_range_from index l
               (stagingBody C a archiveDir n deploy skipPreflights isCLI) s in
    outcome r = Returned tt /\
    (downloads (events r)).*1 = Cursor <$> l /\
    failure_logged (events r) /\
    deploys (events r) = deploy_of_last a deploy (downloads (events r)).
Proof.
  induction l as [|u l IH]; intros index s Hlen r; subst r.
  - simpl. split_and!; try done. intros ? ? ? ? ? ? Hin. by in_trace Hin.
  - destruct (stagingBody_run a archiveDir n deploy skipPreflights isCLI
                index u s) as (s1 & tr & res & Hrun & Hdl & Hlog & Hdep).
    simpl for_range_from. rewrite (bind_returned _ _ _ _ _ _ Hrun). simpl.
    assert (Hlen' : index + 1 + Z.of_nat (length l) = n)
      by (simpl in Hlen; lia).
    destruct (IH (index + 1) s1 Hlen') as (Ho & Hc & Hl & Hd).
    unfold downloads, deploys in *.
    rewrite !omap_app, Hdl, Hdep, Hd, fmap_app, Hc.
    split_and!; [done | done | by apply failure_logged_app |].
    destruct l as [|u' l].
    + apply fmap_nil_inv in Hc. rewrite Hc.
      rewrite bool_decide_eq_true_2 by (simpl in Hlen; lia).
      by rewrite !app_nil_r.
    + rewrite bool_decide_eq_false_2 by (simpl in Hlen; lia).
      simpl. unfold deploy_of_last.
      destruct (omap _ (events _)) as [|d dl] eqn:Hrest; [done |].
      by rewrite last_cons_cons.
Qed.


End StagingFacts.

(** ** [Configure] and [Start] *)

Lemma filter_all {A} (P : A -> Prop) `{!forall x, Decision (P x)} (l : list A) :
  (forall x, x ∈ l -> P x) -> filter P l = l.
Proof.
  induction l as [|x l IH]; intros Hall; [done |].
  rewrite filter_cons_True by (apply Hall; left).
  f_equal. apply IH. intros y Hy. apply Hall. by right.
Qed.

Lemma filter_none {A} (P : A -> Prop) `{!forall x, Decision (P x)} (l : list A) :
  (forall x, x ∈ l -> ¬ P x) -> filter P l = [].
Proof.
  induction l as [|x l IH]; intros Hall; [done |].
  rewrite filter_cons_False by (apply Hall; left).
  apply IH. intros y Hy. apply Hall. by right.
Qed.

Section ConfigureFacts.
Context {W : Type} (C : Collaborators W).

Lemma resolveSpec_run (cronSpec : string) (s : State W) :
  exists tr,
    resolveSpec C cronSpec s =
      {| outcome := Returned (resolved C (world s) cronSpec);
         final := s; events := tr |}.
Proof.
  unfold resolveSpec, resolved. unfold_m.
  destruct (decide (cronSpec = "@default")); eexists; reflexivity.
Qed.

Lemma remove_entries (job : ptr) (l : list Entry) :
  forall (s : State W) (c : Cron),
    heap s !! job = Some c ->
    exists c',
      for_range l (fun entry => cron_Remove job (EntryID entry)) s =
        {| outcome := Returned tt;
           final := set_heap (<[job := c']> (heap s)) s; events := [] |} /\
      entries c' = filter (fun e => EntryID e ∉ EntryID <$> l) (entries c) /\
      running c' = running c /\ nextID c' = nextID c.
Proof.
  induction l as [|x l IH]; intros s c Hc.
  - exists c. simpl. rewrite (insert_id _ _ _ Hc).
    split_and!; try done.
    + by destruct s.
    + symmetry. apply filter_all. intros ? _. apply not_elem_of_nil.
  - simpl for_range. unfold bind. unfold cron_Remove at 1, with_cron.
    rewrite Hc.
    set (c1 := {| entries := filter (λ e, EntryID e ≠ EntryID x) (entries c);
                  running := running c; nextID := nextID c |}).
    set (s1 := set_heap (<[job:=c1]> (heap s)) s).
    destruct (IH s1 c1) as (c' & Hrun & He & Hr & Hn).
    { unfold s1. simpl. apply lookup_insert_eq. }
    rewrite Hrun. exists c'. split_and!; try done.
    + unfold s1. simpl. unfold set_heap. simpl. by rewrite insert_insert_eq.
    + rewrite He. unfold c1. simpl. rewrite list_filter_filter.
      apply list_filter_iff. intros e. rewrite elem_of_cons. tauto.
Qed.

Lemma registry_wf_insert (s s' : State W) (appID : string) (job : ptr)
    (c : Cron) :
  registry_wf s ->
  jobs s' = <[appID := job]> (jobs s) ->
  heap s' = <[job := c]> (heap s) ->
  registry_wf s'.
Proof.
  intros Hwf Hj Hh appID' job'. rewrite Hj, Hh. intros Hl.
  destruct (decide (job = job')) as [-> | Hne].
  - rewrite lookup_insert_eq. eauto.
  - rewrite lookup_insert_ne by done.
    destruct (decide (appID = appID')) as [<- | Hne'].
    + rewrite lookup_insert_eq in Hl. congruence.
    + rewrite lookup_insert_ne in Hl by done. eauto.
Qed.

Lemma registry_wf_heap (s s' : State W) (job : ptr) (c : Cron) :
  registry_wf s ->
  jobs s' = jobs s ->
  heap s' = <[job := c]> (heap s) ->
  registry_wf s'.
Proof.
  intros Hwf Hj Hh appID' job'. rewrite Hj, Hh. intros Hl.
  destruct (decide (job = job')) as [-> | Hne].
  - rewrite lookup_insert_eq. eauto.
  - rewrite lookup_insert_ne by done. eauto.
Qed.

(** [Configure] for an application that is online and whose cadence is
    not disabled. *)
Lemma Configure_run (appID : string) (s : State W) (a : App) :
  registry_wf s ->
  mtx s = false ->
  store_GetApp C appID (world s) = (a, nil) ->
  IsAirgap a = false ->
  ¬ disabled (UpdateCheckerSpec a) ->
  let r := Configure C appID s in
  world (final r) = world s /\
  mtx (final r) = false /\
  registry_wf (final r) /\
  match cron_Parse C (resolved C (world s) (UpdateCheckerSpec a)) with
  | Some cause =>
      outcome r = Returned (Some ("failed to add func: " +:+ cause)) /\
      jobs (final r) = jobs s
  | None =>
      outcome r = Returned nil /\
      exists job c e,
        jobs (final r) = <[ID a := job]> (jobs s) /\
        heap (final r) = <[job := c]> (heap s) /\
        (forall job0, jobs s !! ID a = Some job0 -> job = job0) /\
        entries c = [e] /\
        running c = true /\
        nextID c = EntryID e /\
        EntryID e = default 0 (nextID <$> heap s !! job) + 1 /\
        entrySpec e = resolved C (world s) (UpdateCheckerSpec a) /\
        jobAppID e = ID a /\
        jobAppSlug e = Slug a
  end.
Proof.
  intros Hwf Hmtx Happ Hair Hdis r.
  assert (Hr : r = Configure C appID s) by reflexivity. clearbody r.
  unfold Configure in Hr. unfold_m. rewrite Happ in Hr. simpl in Hr.
  rewrite Hair in Hr. unfold mtx_Lock in Hr. rewrite Hmtx in Hr.
  destruct (decide (UpdateCheckerSpec a = "@never" ∨ UpdateCheckerSpec a = ""))
    as [Hd | _]; [by destruct Hdis |].
  destruct (resolveSpec_run (UpdateCheckerSpec a) (set_mtx true s)) as [tr Hres].
  rewrite Hres in Hr. simpl in Hr.
  unfold jobs_lookup in Hr. simpl in Hr.
  destruct (jobs s !! ID a) as [job |] eqn:Hjob.
  - destruct (Hwf _ _ Hjob) as [c0 Hc0].
    unfold cron_Entries, with_cron in Hr. simpl in Hr. rewrite Hc0 in Hr.
    destruct (remove_entries job (entries c0)
                (set_heap (<[job:=c0]> (heap s)) (set_mtx true s)) c0)
      as (c1 & Hrm & He1 & Hr1 & Hn1); [apply lookup_insert_eq |].
    rewrite Hrm in Hr. simpl in Hr.
    unfold cron_AddFunc in Hr.
    destruct (cron_Parse C (resolved C (world s) (UpdateCheckerSpec a)))
      as [cause |] eqn:Hparse.
    + simpl in Hr. rewrite !insert_insert_eq in Hr. subst r. simpl.
      split_and!; try done. by eapply registry_wf_heap.
    + unfold with_cron in Hr. simpl in Hr.
      rewrite lookup_insert_eq in Hr. simpl in Hr.
      unfold cron_Start, with_cron in Hr. simpl in Hr.
      rewrite lookup_insert_eq in Hr. simpl in Hr.
      rewrite !insert_insert_eq in Hr.
      assert (Hnone : entries c1 = []).
      { rewrite He1. apply filter_none. intros e He Hnot. apply Hnot.
        by apply list_elem_of_fmap_2. }
      rewrite Hnone, Hn1 in Hr. subst r. simpl.
      split_and!; try done; [by eapply registry_wf_insert |].
      do 3 eexists. split_and!; try reflexivity; [congruence |].
      simpl. by rewrite Hc0.
  - unfold cron_New in Hr. simpl in Hr.
    set (job := fresh (dom (heap s))) in *.
    assert (Hfresh : heap s !! job = None).
    { apply not_elem_of_dom. apply is_fresh. }
    unfold cron_AddFunc in Hr.
    destruct (cron_Parse C (resolved C (world s) (UpdateCheckerSpec a)))
      as [cause |] eqn:Hparse.
    + simpl in Hr. subst r. simpl.
      split_and!; try done. by eapply registry_wf_heap.
    + unfold with_cron in Hr. simpl in Hr.
      rewrite lookup_insert_eq in Hr. simpl in Hr.
      unfold cron_Start, with_cron in Hr. simpl in Hr.
      rewrite lookup_insert_eq in Hr. simpl in Hr.
      rewrite !insert_insert_eq in Hr.
      subst r. simpl.
      split_and!; try done; [by eapply registry_wf_insert |].
      do 3 eexists. split_and!; try reflexivity; [done |].
      simpl. by rewrite Hfresh.
Qed.

(** [Configure] for an application that is online and whose cadence is
    disabled. *)
Lemma Configure_disabled (appID : string) (s : State W) (a : App) :
  registry_wf s ->
  mtx s = false ->
  store_GetApp C appID (world s) = (a, nil) ->
  IsAirgap a = false ->
  disabled (UpdateCheckerSpec a) ->
  let r := Configure C appID s in
  outcome r = Returned nil /\
  world (final r) = world s /\
  mtx (final r) = false /\
  registry_wf (final r) /\
  jobs (final r) = jobs s /\
  heap (final r) =
    match jobs s !! ID a with
    | Some job =>
        alter (fun c => {| entries := entries c; running := false;
                           nextID := nextID c |}) job (heap s)
    | None => heap s
    end.
Proof.
  intros Hwf Hmtx Happ Hair Hdis r.
  assert (Hr : r = Configure C appID s) by reflexivity. clearbody r.
  unfold Configure in Hr. unfold_m. rewrite Happ in Hr. simpl in Hr.
  rewrite Hair in Hr. unfold mtx_Lock in Hr. rewrite Hmtx in Hr.
  destruct (decide (UpdateCheckerSpec a = "@never" ∨ UpdateCheckerSpec a = ""))
    as [_ | Hd]; [| by destruct Hd].
  unfold Stop in Hr. unfold_m. unfold jobs_lookup in Hr. simpl in Hr.
  destruct (jobs s !! ID a) as [job |] eqn:Hjob.
  - destruct (Hwf _ _ Hjob) as [c0 Hc0].
    unfold cron_Stop, with_cron in Hr. simpl in Hr. rewrite Hc0 in Hr.
    simpl in Hr. subst r. simpl. split_and!; try done.
    + by eapply registry_wf_heap.
    + apply map_eq. intros p.
      destruct (decide (job = p)) as [<- | Hne].
      * by rewrite lookup_insert_eq, lookup_alter_eq, Hc0.
      * by rewrite lookup_insert_ne, lookup_alter_ne.
  - simpl in Hr. subst r. simpl. by split_and!.
Qed.

(** Whatever the application, [Configure] returns, releases the lock,
    leaves the world alone and keeps the registry well formed; it changes
    the job of an application only when that application is online with a
    cadence that is not disabled. *)
Lemma Configure_total (appID : string) (s : State W) :
  registry_wf s ->
  mtx s = false ->
  let r := Configure C appID s in
  (exists err, outcome r = Returned err) /\
  world (final r) = world s /\
  mtx (final r) = false /\
  registry_wf (final r) /\
  (forall target,
     jobs (final r) !! target ≠ jobs s !! target ->
     exists a, store_GetApp C appID (world s) = (a, nil) /\
               ID a = target /\ ¬ disabled (UpdateCheckerSpec a)).
Proof.
  intros Hwf Hmtx r.
  destruct (store_GetApp C appID (world s)) as [a [e|]] eqn:Happ.
  - subst r. unfold Configure. unfold_m. rewrite Happ. simpl.
    split_and!; eauto. intros ? Hne. done.
  - destruct (IsAirgap a) eqn:Hair.
    + subst r. unfold Configure. unfold_m. rewrite Happ. simpl.
      rewrite Hair. simpl. split_and!; eauto. intros ? Hne. done.
    + destruct (decide (disabled (UpdateCheckerSpec a))) as [Hd | Hd].
      * destruct (Configure_disabled appID s a Hwf Hmtx Happ Hair Hd)
          as (Ho & Hw & Hm & Hwf' & Hj & _).
        fold r in Ho, Hw, Hm, Hwf', Hj.
        split_and!; eauto. intros ? Hne. by rewrite Hj in Hne.
      * destruct (Configure_run appID s a Hwf Hmtx Happ Hair Hd)
          as (Hw & Hm & Hwf' & Hcase).
        fold r in Hw, Hm, Hwf', Hcase.
        destruct (cron_Parse C _) as [cause |].
        -- destruct Hcase as [Ho Hj]. split_and!; eauto.
           intros ? Hne. by rewrite Hj in Hne.
        -- destruct Hcase as (Ho & job & c & e & Hj & _).
           split_and!; eauto. intros target Hne. exists a.
           split_and!; try done.
           destruct (decide (ID a = target)) as [|Hne']; [done |].
           rewrite Hj, lookup_insert_ne in Hne; done.
Qed.

(** The loop of [Start] keeps the registry well formed and installs no
    job for an application whose cadence is disabled. *)
Lemma Start_loop (w : W) (target : string) (appsList : list App) :
  (forall id a, store_GetApp C id w = (a, nil) -> ID a = target ->
                disabled (UpdateCheckerSpec a)) ->
  forall s : State W,
    registry_wf s -> mtx s = false -> world s = w ->
    jobs s !! target = None ->
    let r := for_range appsList (fun a =>
               if IsAirgap a then mret tt else
               err ← Configure C (ID a);
               if not_nil err
               then logger_Error
                      (errors_Wrap err ("failed to configure app " +:+ Slug a))
               else mret tt) s in
    outcome r = Returned tt /\
    registry_wf (final r) /\ mtx (final r) = false /\
    world (final r) = w /\ jobs (final r) !! target = None.
Proof.
  intros Hstore. induction appsList as [|x l IH];
    intros s Hwf Hmtx Hw Hnone r; subst r; [done |].
  simpl for_range.
  destruct (IsAirgap x) eqn:Hair.
  - unfold bind at 1. unfold_m. simpl.
    destruct (IH s Hwf Hmtx Hw Hnone) as (Ho & Hrest).
    destruct (for_range l _ s) as [o sf tr]. simpl in *. by subst o.
  - destruct (Configure_total (ID x) s Hwf Hmtx)
      as ([err Ho] & Hw' & Hm' & Hwf' & Hj).
    assert (Hnone' : jobs (final (Configure C (ID x) s)) !! target = None).
    { destruct (decide (jobs (final (Configure C (ID x) s)) !! target
                        = jobs s !! target)) as [-> | Hne]; [done |].
      destruct (Hj _ Hne) as (a & Ha & Hid & Hdis).
      rewrite Hw in Ha. by destruct Hdis; eapply Hstore. }
    rewrite Hw in Hw'.
    specialize (IH _ Hwf' Hm' Hw' Hnone').
    unfold bind at 1. unfold_m.
    destruct (Configure C (ID x) s) as [o s1 t1]. simpl in *. subst o.
    destruct err as [e|]; simpl.
    + destruct (for_range l _ s1) as [o sf tr]. simpl in *.
      destruct IH as (-> & ?). done.
    + destruct (for_range l _ s1) as [o sf tr]. simpl in *.
      destruct IH as (-> & ?). done.
Qed.

(** C4. For an online application whose cadence is not disabled and is
    accepted by the scheduler, two calls of [Configure] in succession (the
    world, and with it the clock, may have moved in between) both return
    [nil]; the second finds the job the first stored and keeps it; after
    each call the job has exactly one entry, and the entry left by the
    second call is a new one: the entry of the first call was removed
    before it was added. *)
Theorem Configure_twice_one_entry
    (appID : string) (s : State W) (w2 : W) (a1 a2 : App) :
  registry_wf s ->
  mtx s = false ->
  store_GetApp C appID (world s) = (a1, nil) ->
  store_GetApp C appID w2 = (a2, nil) ->
  ID a2 = ID a1 ->
  IsAirgap a1 = false ->
  IsAirgap a2 = false ->
  ¬ disabled (UpdateCheckerSpec a1) ->
  ¬ disabled (UpdateCheckerSpec a2) ->
  cron_Parse C (resolved C (world s) (UpdateCheckerSpec a1)) = nil ->
  cron_Parse C (resolved C w2 (UpdateCheckerSpec a2)) = nil ->
  let r1 := Configure C appID s in
  let r2 := Configure C appID (set_world w2 (final r1)) in
  outcome r1 = Returned nil /\
  outcome r2 = Returned nil /\
  exists job c1 c2 e1 e2,
    jobs (final r1) !! ID a1 = Some job /\
    heap (final r1) !! job = Some c1 /\
    entries c1 = [e1] /\
    jobs (final r2) !! ID a1 = Some job /\
    heap (final r2) !! job = Some c2 /\
    entries c2 = [e2] /\
    running c2 = true /\
    active_triggers (final r2) (ID a1) = [e2] /\
    EntryID e2 = EntryID e1 + 1 /\
    entrySpec e2 = resolved C w2 (UpdateCheckerSpec a2) /\
    jobAppID e2 = ID a1.
Proof.
  intros Hwf Hmtx Happ1 Happ2 Hid Hair1 Hair2 Hdis1 Hdis2 Hp1 Hp2 r1 r2.
  destruct (Configure_run appID s a1 Hwf Hmtx Happ1 Hair1 Hdis1)
    as (Hw1 & Hm1 & Hwf1 & Hcase1).
  rewrite Hp1 in Hcase1. fold r1 in Hw1, Hm1, Hwf1, Hcase1.
  destruct Hcase1 as (Ho1 & job & c1 & e1 & Hj1 & Hh1 & _ & He1 & Hrun1 & Hn1 & _).
  set (s2 := set_world w2 (final r1)).
  assert (Hwf2 : registry_wf s2) by exact Hwf1.
  destruct (Configure_run appID s2 a2 Hwf2 Hm1 Happ2 Hair2 Hdis2)
    as (Hw2 & Hm2 & Hwf2' & Hcase2).
  simpl world in Hcase2. rewrite Hp2 in Hcase2.
  unfold s2 in *. fold r2 in Hw2, Hm2, Hwf2', Hcase2.
  destruct Hcase2
    as (Ho2 & job' & c2 & e2 & Hj2 & Hh2 & Hsame & He2 & Hrun2 & Hn2 & Hid2
        & Hspec2 & Hcap2 & _).
  simpl in Hj2, Hh2, Hsame, Hid2.
  assert (Hl1 : jobs (final r1) !! ID a1 = Some job)
    by (rewrite Hj1; apply lookup_insert_eq).
  assert (Hc1 : heap (final r1) !! job = Some c1)
    by (rewrite Hh1; apply lookup_insert_eq).
  assert (job' = job) as -> by (apply Hsame; by rewrite Hid).
  assert (Hl2 : jobs (final r2) !! ID a1 = Some job)
    by (rewrite Hj2, Hid; apply lookup_insert_eq).
  assert (Hc2 : heap (final r2) !! job = Some c2)
    by (rewrite Hh2; apply lookup_insert_eq).
  split_and!; try done.
  exists job, c1, c2, e1, e2. split_and!; try done.
  - unfold active_triggers. by rewrite Hl2, Hc2, Hrun2.
  - rewrite Hid2, Hc1. simpl. by rewrite Hn1.
  - by rewrite Hcap2.
Qed.

(** C8. For an online application whose cadence is "@never" or empty,
    [Configure] returns [nil], leaves the registry and the entries of
    every scheduler as they were, stops the job of the application when
    there is one, and leaves the application without active trigger.
    After [Start] on the empty registry an application whose cadence is
    disabled has no job, hence no active trigger. *)
Theorem Configure_never_no_trigger :
  (forall (appID : string) (s : State W) (a : App),
      registry_wf s ->
      mtx s = false ->
      store_GetApp C appID (world s) = (a, nil) ->
      IsAirgap a = false ->
      disabled (UpdateCheckerSpec a) ->
      let r := Configure C appID s in
      outcome r = Returned nil /\
      jobs (final r) = jobs s /\
      (forall job, entries <$> heap (final r) !! job
                   = entries <$> heap s !! job) /\
      (forall job c, jobs s !! ID a = Some job ->
                     heap (final r) !! job = Some c -> running c = false) /\
      active_triggers (final r) (ID a) = []) /\
  (forall (w : W) (target : string),
      (forall id a, store_GetApp C id w = (a, nil) -> ID a = target ->
                    disabled (UpdateCheckerSpec a)) ->
      let r := Start C {| world := w; jobs := ∅; heap := ∅; mtx := false |} in
      (exists err, outcome r = Returned err) /\
      jobs (final r) !! target = None /\
      active_triggers (final r) target = []).
Proof.
  split.
  - intros appID s a Hwf Hmtx Happ Hair Hdis r.
    destruct (Configure_disabled appID s a Hwf Hmtx Happ Hair Hdis)
      as (Ho & Hw & Hm & Hwf' & Hj & Hh).
    fold r in Ho, Hw, Hm, Hwf', Hj, Hh.
    assert (Hstopped : forall job c, jobs s !! ID a = Some job ->
              heap (final r) !! job = Some c -> running c = false).
    { intros job c Hjob. rewrite Hh, Hjob, lookup_alter_eq.
      destruct (heap s !! job); simpl; [| done]. by intros [= <-]. }
    split_and!; try done.
    + intros job. rewrite Hh. destruct (jobs s !! ID a) as [job0 |]; [| done].
      destruct (decide (job0 = job)) as [<- | Hne].
      * rewrite lookup_alter_eq. by destruct (heap s !! job0).
      * by rewrite lookup_alter_ne.
    + unfold active_triggers. rewrite Hj.
      destruct (jobs s !! ID a) as [job |] eqn:Hjob; [| done].
      destruct (heap (final r) !! job) as [c |] eqn:Hc; [| done].
      by rewrite (Hstopped job c).
  - intros w target Hstore r.
    set (s0 := {| world := w; jobs := ∅; heap := ∅; mtx := false |}) in *.
    assert (Hr : r = Start C s0) by reflexivity. clearbody r.
    unfold Start in Hr. unfold_m. simpl in Hr.
    destruct (store_ListInstalledApps C w) as [appsList [e|]] eqn:Hlist;
      simpl in Hr.
    + subst r. simpl. split_and!; eauto.
    + assert (Hwf0 : registry_wf s0) by (intros ? ? Hl; done).
      destruct (Start_loop w target appsList Hstore s0 Hwf0 eq_refl eq_refl
                  (lookup_empty _)) as (Ho & _ & _ & _ & Hnone).
      unfold_m.
      destruct (for_range appsList _ s0) as [o sf tr].
      simpl in *. subst o r. simpl.
      split_and!; eauto. unfold active_triggers. by rewrite Hnone.
Qed.
End ConfigureFacts.

(** ** The default cadence *)

Lemma default_table : default_table_ok = true.
Proof. vm_compute. reflexivity. Qed.

Lemma default_text_parse (m h : Z) :
  0 <= m < 60 -> 0 <= h < 4 ->
  CronSpec.parse (default_text m h) = Some (every_four_hours m h).
Proof.
  intros Hm Hh. pose proof default_table as Ht. unfold default_table_ok in Ht.
  rewrite forallb_forall in Ht.
  assert (Hin : In m (seqZ 0 60)) by (apply list_elem_of_In, elem_of_seqZ; lia).
  specialize (Ht m Hin). rewrite forallb_forall in Ht.
  assert (Hin' : In h (seqZ 0 4)) by (apply list_elem_of_In, elem_of_seqZ; lia).
  specialize (Ht h Hin'). by apply bool_decide_eq_true in Ht.
Qed.

Lemma every_four_hours_fires (m h month dom dow hour minute : Z) :
  0 <= m < 60 -> 0 <= h < 4 ->
  1 <= month <= 12 -> 1 <= dom <= 31 -> 0 <= dow <= 6 ->
  0 <= hour < 24 -> 0 <= minute < 60 ->
  CronSpec.fires (every_four_hours m h) month dom dow hour minute = true <->
  (60 * hour + minute) mod 240 = 60 * h + m.
Proof.
  intros Hm Hh Hmo Hdom Hdow Hhour Hmin.
  unfold CronSpec.fires, CronSpec.dayMatches, CronSpec.has, every_four_hours.
  cbn [CronSpec.sMinute CronSpec.sHour CronSpec.sDom CronSpec.sMonth
       CronSpec.sDow CronSpec.bits CronSpec.star orb].
  rewrite !andb_true_iff, !bool_decide_eq_true.
  rewrite !elem_of_seqZ, list_elem_of_singleton.
  rewrite list_elem_of_fmap.
  split.
  - intros [[[_ _] (k & -> & Hk%elem_of_seqZ)] ->]. 
    replace (60 * (h + 4 * k) + m) with (60 * h + m + k * 240) by lia.
    rewrite Z.mod_add by lia. apply Z.mod_small. lia.
  - intros Heq. split_and!; try lia.
    + exists (hour / 4). rewrite elem_of_seqZ.
      pose proof (Z.div_mod hour 4). pose proof (Z.mod_pos_bound hour 4).
      pose proof (Z.div_mod (60 * hour + minute) 240).
      pose proof (Z.mod_pos_bound (60 * hour + minute) 240).
      lia.
    + pose proof (Z.div_mod hour 4). pose proof (Z.mod_pos_bound hour 4).
      pose proof (Z.div_mod (60 * hour + minute) 240).
      pose proof (Z.mod_pos_bound (60 * hour + minute) 240).
      lia.
Qed.

Lemma Minute_bounds (t : Time) : 0 <= Minute t < 60.
Proof. unfold Minute. apply Z.mod_pos_bound. lia. Qed.

Lemma Hour_offset_bounds (t : Time) : 0 <= Hour t mod 4 < 4.
Proof. apply Z.mod_pos_bound. lia. Qed.

Lemma same_wall_minute_fields (t1 t2 : Time) :
  same_wall_minute t1 t2 -> Minute t1 = Minute t2 /\ Hour t1 = Hour t2.
Proof.
  unfold same_wall_minute, Minute, Hour. intros Heq.
  replace 3600 with (60 * 60) by reflexivity.
  rewrite <-!Z.div_div by lia. by rewrite Heq.
Qed.

Section DefaultCadence.
Context {W : Type} (C : Collaborators W).

(** C5. Resolving "@default" at time [t] gives the text made of the
    minute of [t] and of the hour of [t] modulo 4, followed by [/4 * * *].
    The scheduler reads it as: minute field the minute of [t]; hour field
    the hours congruent to the hour of [t] modulo 4; every day.  So it
    fires at the minutes of the day that are congruent, modulo 240, to
    [60 * (hour mod 4) + minute]: once every four hours.  Two resolutions
    within the same wall-clock minute give the same text. *)
Theorem default_cadence_every_four_hours (s : State W) :
  let t := time_Now C (world s) in
  let text := default_text (Minute t) (Hour t mod 4) in
  let schedule := every_four_hours (Minute t) (Hour t mod 4) in
  outcome (resolveSpec C "@default" s) = Returned text /\
  CronSpec.parse text = Some schedule /\
  CronSpec.bits (CronSpec.sMinute schedule) = [Minute t] /\
  (forall hour, 0 <= hour < 24 ->
     hour ∈ CronSpec.bits (CronSpec.sHour schedule) <->
     hour mod 4 = Hour t mod 4) /\
  (forall month dom dow hour minute,
     1 <= month <= 12 -> 1 <= dom <= 31 -> 0 <= dow <= 6 ->
     0 <= hour < 24 -> 0 <= minute < 60 ->
     CronSpec.fires schedule month dom dow hour minute = true <->
     (60 * hour + minute) mod 240 = 60 * (Hour t mod 4) + Minute t) /\
  (forall s2 : State W,
     same_wall_minute t (time_Now C (world s2)) ->
     outcome (resolveSpec C "@default" s2)
     = outcome (resolveSpec C "@default" s)).
Proof.
  intros t text schedule.
  pose proof (Minute_bounds t) as Hm.
  pose proof (Hour_offset_bounds t) as Hh.
  split_and!.
  - reflexivity.
  - by apply default_text_parse.
  - reflexivity.
  - intros hour Hhour. unfold schedule, every_four_hours.
    cbn [CronSpec.sHour CronSpec.bits]. rewrite list_elem_of_fmap. split.
    + intros (k & -> & Hk%elem_of_seqZ).
      replace (Hour t mod 4 + 4 * k) with (Hour t mod 4 + k * 4) by lia.
      rewrite Z.mod_add by lia. by rewrite Z.mod_mod.
    + intros Heq. exists (hour / 4). rewrite elem_of_seqZ, <-Heq.
      pose proof (Z.div_mod hour 4). pose proof (Z.mod_pos_bound hour 4).
      lia.
  - intros month dom dow hour minute Hmo Hdom Hdow Hhour Hmin.
    by apply every_four_hours_fires.
  - intros s2 Hsame. apply same_wall_minute_fields in Hsame as [Hmin Hhr].
    unfold resolveSpec. unfold_m. simpl. fold t.
    by rewrite <-Hmin, <-Hhr.
Qed.

End DefaultCadence.

(** ** More on [CheckForUpdates] *)

Section CheckForUpdatesMore.
Context {W : Type} (C : Collaborators W).

(** X1. [CheckForUpdates] never touches the job registry, the scheduler
  objects or the registry lock. *)
Theorem CheckForUpdates_leaves_registry
  (appID : string) (deploy skipPreflights isCLI : bool) (s : State W) :
let r := CheckForUpdates C appID deploy skipPreflights isCLI s in
jobs (final r) = jobs s /\ heap (final r) = heap s /\ mtx (final r) = mtx s.
Proof.
intros r. subst r. unfold CheckForUpdates. unfold_m. simpl.
repeat step; done.
Qed.

(** X2. Once the temporary directory exists, either the call hands it to
  the staging task it starts and does not remove it, or the call starts
  nothing and the removal of the directory is its last event, also when
  the call panics. *)
Theorem CheckForUpdates_archive_dir
  (appID : string) (deploy skipPreflights isCLI : bool) (s : State W)
  (dir : string) :
let r := CheckForUpdates C appID deploy skipPreflights isCLI s in
EvTempDir (dir, nil) ∈ events r ->
(spawned (events r) = [] /\ removals (events r) = [dir] /\
 last (events r) = Some (EvRemoveAll dir)) \/
(exists a updates,
   spawned (events r) =
     [TaskStaging a dir updates deploy skipPreflights isCLI] /\
   removals (events r) = []).
Proof.
intros r. subst r. unfold CheckForUpdates. unfold_m. simpl.
repeat step; intros Hin; in_trace Hin;
  first [by left | right; by do 2 eexists].
Qed.

(** X3. A call whose temporary directory could not be made, or that ended
  before making one, removes no directory and starts no task. *)
Theorem CheckForUpdates_no_dir_no_removal
  (appID : string) (deploy skipPreflights isCLI : bool) (s : State W) :
let r := CheckForUpdates C appID deploy skipPreflights isCLI s in
(forall dir, EvTempDir (dir, nil) ∉ events r) ->
removals (events r) = [] /\ spawned (events r) = [] /\
exists err, outcome r = Returned (0, err).
Proof.
intros r. subst r. unfold CheckForUpdates. unfold_m. simpl.
repeat step; intros Hno; try (by eauto).
all: exfalso; eapply Hno; here.
Qed.

(** X4. Without [deploy] a call never panics, never lists versions or
  downstreams, makes no deploy call, and the only task it can start is a
  staging with [deploy] unset. *)
Theorem CheckForUpdates_without_deploy
  (appID : string) (skipPreflights isCLI : bool) (s : State W) :
let r := CheckForUpdates C appID false skipPreflights isCLI s in
(exists n err, outcome r = Returned (n, err)) /\
deploys (events r) = [] /\
(forall id res, EvGetVersions id res ∉ events r) /\
(forall id res, EvListDownstreams id res ∉ events r) /\
(forall t, t ∈ spawned (events r) ->
   exists a dir updates,
     t = TaskStaging a dir updates false skipPreflights isCLI).
Proof.
intros r. subst r. unfold CheckForUpdates. unfold_m. simpl.
repeat step; split_and!; eauto; try (intros ? ?; not_in_trace).
all: intros t Hin; in_trace Hin; eauto.
Qed.

(** X5. The status write, when there is one, is for "update-download",
  with status "running" and the message "N Updates available..." for the
  N releases of the upstream answer.  When it succeeds the call returns
  [(N, nil)]; when it fails the call returns 0 with the wrapped error,
  starts nothing and removes the temporary directory. *)
Theorem CheckForUpdates_status_write
  (appID : string) (deploy skipPreflights isCLI : bool) (s : State W)
  (id message status : string) (res : error) :
let r := CheckForUpdates C appID deploy skipPreflights isCLI s in
EvSetTaskStatus id message status res ∈ events r ->
exists upstreamURI o updates,
  EvGetUpdates upstreamURI o (updates, nil) ∈ events r /\
  id = "update-download" /\ status = "running" /\
  message = fmt_d (Z.of_nat (length updates)) +:+ " Updates available..." /\
  match res with
  | None => outcome r = Returned (Z.of_nat (length updates), nil)
  | Some e =>
      outcome r = Returned (0, Some ("failed to set task status: " +:+ e)) /\
      spawned (events r) = [] /\
      exists dir, removals (events r) = [dir]
  end.
Proof.
intros r. subst r. unfold CheckForUpdates. unfold_m. simpl.
repeat step; intros Hin; in_trace Hin.
all: do 3 eexists; split_and!; try reflexivity; try here; eauto.
Qed.

(** X6. When a call that [CheckForUpdates] makes fails, the last-checked
  write apart, [CheckForUpdates] returns 0 and the error of that very call
  behind the text of its step.  Conversely the error it returns is that
  of a failed call of its trace behind the text of the step, or "no
  versions found" after an empty list of versions. *)
Theorem CheckForUpdates_error_wrapped
  (appID : string) (deploy skipPreflights isCLI : bool) (s : State W) :
let r := CheckForUpdates C appID deploy skipPreflights isCLI s in
(forall ev step cause,
   ev ∈ events r -> failure_of ev = Some (step, cause) ->
   outcome r = Returned (0, Some (step +:+ ": " +:+ cause))) /\
(forall n e,
   outcome r = Returned (n, Some e) ->
   n = 0 /\
   ((e = "no versions found" /\
     exists id, EvGetVersions id ([], nil) ∈ events r) \/
    exists ev step cause,
      ev ∈ events r /\ failure_of ev = Some (step, cause) /\
      e = step +:+ ": " +:+ cause)).
Proof.
intros r. subst r. unfold CheckForUpdates. unfold_m. simpl.
repeat step; decided; split.
all: try (intros ? ? ? Hin Hf; in_trace Hin; done).
all: try (intros ? ? Heq; discriminate Heq).
all: intros ? ? [= <- <-]; (split; [reflexivity |]).
all: first [ right; failing_event
           | left; split; [reflexivity |];
             match goal with
             | H : length ?l = 0%nat |- _ => destruct l; [| done]
             end; eexists; here ].
Qed.

End CheckForUpdatesMore.

(** ** More on the staging pipeline and the scheduled callback *)

Section StagingMore.
Context {W : Type} (C : Collaborators W).

Lemma stagingBody_quiet (a : App) (archiveDir : string) (n : Z)
  (deploy skipPreflights isCLI : bool) (index : Z) (u : Update)
  (s : State W) :
let r := stagingBody C a archiveDir n deploy skipPreflights isCLI index u s in
removals (events r) = [] /\
spawned (events r) = report_of skipPreflights isCLI <$> deploys (events r) /\
jobs (final r) = jobs s /\ heap (final r) = heap s /\ mtx (final r) = mtx s.
Proof.
intros r. subst r. unfold stagingBody. unfold_m. unfold andb.
repeat step; done.
Qed.

Lemma staging_loop_quiet (a : App) (archiveDir : string) (n : Z)
  (deploy skipPreflights isCLI : bool) (l : list Update) :
forall (index : Z) (s : State W),
  let r := for_range_from index l
             (stagingBody C a archiveDir n deploy skipPreflights isCLI) s in
  removals (events r) = [] /\
  spawned (events r) = report_of skipPreflights isCLI <$> deploys (events r) /\
  jobs (final r) = jobs s /\ heap (final r) = heap s /\ mtx (final r) = mtx s.
Proof.
induction l as [|u l IH]; intros index s r; subst r; [done |].
destruct (stagingBody_run C a archiveDir n deploy skipPreflights isCLI
            index u s) as (s1 & tr & res & Hrun & _).
pose proof (stagingBody_quiet a archiveDir n deploy skipPreflights isCLI
              index u s) as Hq.
simpl in Hq. rewrite Hrun in Hq. simpl in Hq.
destruct Hq as (Hrm & Hsp & Hj & Hh & Hm).
simpl for_range_from. rewrite (bind_returned _ _ _ _ _ _ Hrun). simpl.
destruct (IH (index + 1) s1) as (Hrm' & Hsp' & Hj' & Hh' & Hm').
unfold removals, spawned, deploys in *.
rewrite !omap_app, fmap_app, Hrm, Hrm', Hsp, Hsp', Hj', Hh', Hm'.
done.
Qed.

(** What the staging task does when [deploy] is unset. *)
Lemma stagingTask_without_deploy (a : App) (archiveDir : string)
  (updates : list Update) (skipPreflights isCLI : bool) (s : State W) :
let r := stagingTask C a archiveDir updates false skipPreflights isCLI s in
outcome r = Returned tt /\ deploys (events r) = [] /\
spawned (events r) = [].
Proof.
intros r. subst r. unfold stagingTask.
change (for_range_from 0 updates _)
  with (for_range_from 0 updates
          (stagingBody C a archiveDir (Z.of_nat (length updates)) false
             skipPreflights isCLI)).
destruct (staging_loop C a archiveDir (Z.of_nat (length updates)) false
            skipPreflights isCLI updates 0 s) as (Ho & _ & _ & Hd); [lia |].
destruct (staging_loop_quiet a archiveDir (Z.of_nat (length updates)) false
            skipPreflights isCLI updates 0 s) as (_ & Hsp & _).
unfold defer, RemoveAll, call.
destruct (for_range_from 0 updates _ s) as [o s1 t1].
simpl in *. subst o. simpl.
assert (Hnone : deploys t1 = []).
{ rewrite Hd. unfold deploy_of_last.
  destruct (last (downloads t1)) as [[? [? [?|]]]|]; done. }
unfold spawned, deploys in *. rewrite !omap_app. simpl.
rewrite !app_nil_r, Hsp, Hnone. done.
Qed.

(** X7. The staging task removes the archive directory exactly once,
  whatever the downloads and the deploy answered; it starts one report per
  deploy call, for the same application and sequence, also when the deploy
  call failed; and it leaves the job registry and the lock alone. *)
Theorem stagingTask_cleans_and_reports
  (a : App) (archiveDir : string) (updates : list Update)
  (deploy skipPreflights isCLI : bool) (s : State W) :
let r := stagingTask C a archiveDir updates deploy skipPreflights isCLI s in
removals (events r) = [archiveDir] /\
spawned (events r) = report_of skipPreflights isCLI <$> deploys (events r) /\
jobs (final r) = jobs s /\ heap (final r) = heap s /\ mtx (final r) = mtx s.
Proof.
intros r. subst r. unfold stagingTask.
change (for_range_from 0 updates _)
  with (for_range_from 0 updates
          (stagingBody C a archiveDir (Z.of_nat (length updates)) deploy
             skipPreflights isCLI)).
destruct (staging_loop C a archiveDir (Z.of_nat (length updates)) deploy
            skipPreflights isCLI updates 0 s) as (Ho & _); [lia |].
destruct (staging_loop_quiet a archiveDir (Z.of_nat (length updates)) deploy
            skipPreflights isCLI updates 0 s) as (Hrm & Hsp & Hj & Hh & Hm).
unfold defer, RemoveAll, call.
destruct (for_range_from 0 updates _ s) as [o s1 t1].
simpl in *. subst o. simpl.
unfold removals, spawned, deploys in *. rewrite !omap_app. simpl.
rewrite !app_nil_r, Hrm, Hsp. done.
Qed.

Lemma CheckForUpdates_scheduled (appID : string) (s : State W) :
let c := CheckForUpdates C appID false false false s in
(exists result, outcome c = Returned result) /\
deploys (events c) = [] /\
(forall t, t ∈ spawned (events c) ->
   exists a dir updates, t = TaskStaging a dir updates false false false).
Proof.
intros c. subst c. unfold CheckForUpdates. unfold_m. simpl.
repeat step; split_and!; eauto.
all: intros t Hin; in_trace Hin; eauto.
Qed.

Lemma entryCallback_run (capturedID capturedSlug : string) (s : State W) :
entryCallback C capturedID capturedSlug s =
  match CheckForUpdates C capturedID false false false s with
  | {| outcome := Returned result; final := sf; events := tr |} =>
      {| outcome := Returned tt; final := sf;
         events := EvLog "debug" "checking updates for app" :: tr ++
                   [callback_log capturedSlug result] |}
  | {| outcome := Panicked m; final := sf; events := tr |} =>
      {| outcome := Panicked m; final := sf;
         events := EvLog "debug" "checking updates for app" :: tr |}
  | {| outcome := Blocked; final := sf; events := tr |} =>
      {| outcome := Blocked; final := sf;
         events := EvLog "debug" "checking updates for app" :: tr |}
  end.
Proof.
unfold entryCallback. unfold_m. simpl.
destruct (CheckForUpdates C capturedID false false false s)
  as [[[n [e |]] | m |] sf tr]; simpl; try reflexivity.
destruct (bool_decide (n > 0)); reflexivity.
Qed.

(** X9. A tick of the schedule logs "checking updates for app", runs the
  check without [deploy], and ends with one line: the error of the check,
  behind "failed to check updates for app" and the slug, when the check
  returned one, otherwise whether updates were found.  It always returns,
  passes no error on, makes no deploy call, and whatever task it started
  deploys nothing and starts no report when it runs. *)
Theorem entryCallback_never_fails
  (capturedID capturedSlug : string) (s : State W) :
let c := CheckForUpdates C capturedID false false false s in
let r := entryCallback C capturedID capturedSlug s in
outcome r = Returned tt /\
final r = final c /\
(exists result,
   outcome c = Returned result /\
   events r =
     EvLog "debug" "checking updates for app" :: events c ++
     [callback_log capturedSlug result]) /\
deploys (events r) = [] /\
(forall t s',
   t ∈ spawned (events r) ->
   let r' := run_task C t s' in
   outcome r' = Returned tt /\ deploys (events r') = [] /\
   spawned (events r') = []).
Proof.
intros c r. subst c r. rewrite entryCallback_run.
pose proof (CheckForUpdates_scheduled capturedID s) as Hc. cbv zeta in Hc.
destruct (CheckForUpdates C capturedID false false false s) as [o sf tr].
simpl in Hc. destruct Hc as ([[n err] ->] & Hd & Hsp). simpl.
assert (Hlog : deploys [callback_log capturedSlug (n, err)] = [] /\
               spawned [callback_log capturedSlug (n, err)] = []).
{ destruct err as [e |]; simpl; [done |].
  destruct (bool_decide (n > 0)); done. }
destruct Hlog as [Hld Hls].
split_and!; try done.
- by exists (n, err).
- change (deploys ([EvLog "debug" "checking updates for app"] ++ tr ++
                   [callback_log capturedSlug (n, err)]) = []).
  unfold deploys in *. by rewrite !omap_app, Hd, Hld.
- intros t s' Hin.
  change (t ∈ spawned ([EvLog "debug" "checking updates for app"] ++ tr ++
                        [callback_log capturedSlug (n, err)])) in Hin.
  unfold spawned in *. rewrite !omap_app, Hls, app_nil_r in Hin.
  simpl in Hin.
  destruct (Hsp t Hin) as (a & dir & updates & ->). simpl.
  apply stagingTask_without_deploy.
Qed.

Lemma staging_loop_events (a : App) (archiveDir : string) (n : Z)
  (deploy skipPreflights isCLI : bool) (l : list Update) :
forall (index : Z) (s : State W),
  Forall staging_event
    (events (for_range_from index l
               (stagingBody C a archiveDir n deploy skipPreflights isCLI) s)).
Proof.
induction l as [|u l IH]; intros index s; [by apply Forall_nil |].
destruct (stagingBody_run C a archiveDir n deploy skipPreflights isCLI
            index u s) as (s1 & tr & res & Hrun & _).
assert (Hbody : Forall staging_event tr).
{ assert (Htr : tr = events (stagingBody C a archiveDir n deploy
                               skipPreflights isCLI index u s))
    by (by rewrite Hrun).
  rewrite Htr. clear. unfold stagingBody. unfold_m. unfold andb.
  repeat step; repeat constructor. }
simpl for_range_from. rewrite (bind_returned _ _ _ _ _ _ Hrun). simpl.
apply Forall_app. split; [exact Hbody | apply IH].
Qed.

(** X17. The staging task only downloads, deploys, logs, starts reports
  and removes its directory: it never reads, clears or writes the task
  status, and never loads the application again. *)
Theorem stagingTask_only_stages
  (a : App) (archiveDir : string) (updates : list Update)
  (deploy skipPreflights isCLI : bool) (s : State W) :
Forall staging_event
  (events (stagingTask C a archiveDir updates deploy skipPreflights isCLI s)).
Proof.
unfold stagingTask.
change (for_range_from 0 updates _)
  with (for_range_from 0 updates
          (stagingBody C a archiveDir (Z.of_nat (length updates)) deploy
             skipPreflights isCLI)).
destruct (staging_loop C a archiveDir (Z.of_nat (length updates)) deploy
            skipPreflights isCLI updates 0 s) as (Ho & _); [lia |].
pose proof (staging_loop_events a archiveDir (Z.of_nat (length updates))
              deploy skipPreflights isCLI updates 0 s) as Hev.
unfold defer, RemoveAll, call.
destruct (for_range_from 0 updates _ s) as [o s1 t1].
simpl in *. subst o. simpl.
apply Forall_app. split; [exact Hev | by repeat constructor].
Qed.

Lemma stagingTask_removals (a : App) (archiveDir : string)
  (updates : list Update) (deploy skipPreflights isCLI : bool)
  (s : State W) :
removals
  (events (stagingTask C a archiveDir updates deploy skipPreflights isCLI s))
= [archiveDir].
Proof.
unfold stagingTask.
change (for_range_from 0 updates _)
  with (for_range_from 0 updates
          (stagingBody C a archiveDir (Z.of_nat (length updates)) deploy
             skipPreflights isCLI)).
destruct (staging_loop C a archiveDir (Z.of_nat (length updates)) deploy
            skipPreflights isCLI updates 0 s) as (Ho & _); [lia |].
destruct (staging_loop_quiet a archiveDir (Z.of_nat (length updates)) deploy
            skipPreflights isCLI updates 0 s) as (Hrm & _).
unfold defer, RemoveAll, call.
destruct (for_range_from 0 updates _ s) as [o s1 t1].
simpl in *. subst o. simpl.
unfold removals in *. rewrite !omap_app. simpl.
by rewrite Hrm.
Qed.

(** X18. Every temporary directory a call makes is removed exactly once:
  by the call itself when it starts no task, otherwise by the task it
  starts, whenever and in whatever state that task runs. *)
Theorem CheckForUpdates_dir_removed_once
  (appID : string) (deploy skipPreflights isCLI : bool) (s : State W)
  (dir : string) :
let r := CheckForUpdates C appID deploy skipPreflights isCLI s in
EvTempDir (dir, nil) ∈ events r ->
(spawned (events r) = [] /\ removals (events r) = [dir]) \/
(exists t,
   spawned (events r) = [t] /\
   forall s', removals (events r) ++ removals (events (run_task C t s'))
              = [dir]).
Proof.
intros r. subst r. unfold CheckForUpdates. unfold_m. simpl.
repeat step; intros Hin; in_trace Hin; first [by left | right].
eexists. split; [reflexivity |]. intros s'. simpl.
apply stagingTask_removals.
Qed.

End StagingMore.

(** ** More on [Stop], [Configure] and [Start] *)

Section ConfigureMore.
Context {W : Type} (C : Collaborators W).

Lemma resolveSpec_quiet (cronSpec : string) (s : State W) :
exists tr,
  resolveSpec C cronSpec s =
    {| outcome := Returned (resolved C (world s) cronSpec);
       final := s; events := tr |} /\
  loads tr = [] /\ logged "error" tr = [].
Proof.
unfold resolveSpec, resolved. unfold_m.
destruct (decide (cronSpec = "@default")); eexists; done.
Qed.

(** What a call of [Configure] can touch: the job of the application it
  loaded, and one scheduler object, which is that job or a fresh one. *)
Lemma Configure_footprint (appID : string) (s : State W) :
registry_wf s ->
mtx s = false ->
let r := Configure C appID s in
let a := (store_GetApp C appID (world s)).1 in
(exists tl,
   events r = EvGetApp appID (store_GetApp C appID (world s)) :: tl /\
   loads tl = [] /\ logged "error" tl = []) /\
exists job c,
  (jobs (final r) = jobs s \/ jobs (final r) = <[ID a := job]> (jobs s)) /\
  (heap (final r) = heap s \/ heap (final r) = <[job := c]> (heap s)) /\
  (jobs s !! ID a = Some job \/
   (jobs s !! ID a = None /\ heap s !! job = None)).
Proof.
intros Hwf Hmtx r a.
assert (Hany : exists job,
           jobs s !! ID a = Some job \/
           (jobs s !! ID a = None /\ heap s !! job = None)).
{ destruct (jobs s !! ID a) as [job |]; [by exists job; left |].
  exists (fresh (dom (heap s))). right. split; [done |].
  apply not_elem_of_dom, is_fresh. }
assert (Hr : r = Configure C appID s) by reflexivity. clearbody r.
unfold Configure in Hr. unfold_m.
destruct (store_GetApp C appID (world s)) as [a' [e |]] eqn:Happ;
  simpl in a; subst a; simpl in Hr.
{ subst r. simpl. split; [by eexists |].
  destruct Hany as [job Hjob]. exists job, {| entries := []; running := false; nextID := 0 |}. eauto. }
destruct (IsAirgap a') eqn:Hair.
{ subst r. simpl. split; [by eexists |].
  destruct Hany as [job Hjob]. exists job, {| entries := []; running := false; nextID := 0 |}. eauto. }
unfold mtx_Lock in Hr. rewrite Hmtx in Hr.
destruct (decide (UpdateCheckerSpec a' = "@never" ∨ UpdateCheckerSpec a' = ""))
  as [Hd | Hd].
- unfold Stop in Hr. unfold_m. unfold jobs_lookup in Hr. simpl in Hr.
  destruct (jobs s !! ID a') as [job |] eqn:Hjob.
  + destruct (Hwf _ _ Hjob) as [c0 Hc0].
    unfold cron_Stop, with_cron in Hr. simpl in Hr. rewrite Hc0 in Hr.
    simpl in Hr. subst r. simpl. split; [by eexists |].
    do 2 eexists. split_and!; [by left | by right | by left].
  + simpl in Hr. subst r. simpl. split; [by eexists |].
    destruct Hany as [job Hany].
    exists job, {| entries := []; running := false; nextID := 0 |}. eauto.
- destruct (resolveSpec_quiet (UpdateCheckerSpec a') (set_mtx true s))
    as (tr & Hres & Hl & Hlog).
  rewrite Hres in Hr. simpl in Hr.
  unfold jobs_lookup in Hr. simpl in Hr.
  destruct (jobs s !! ID a') as [job |] eqn:Hjob.
  + destruct (Hwf _ _ Hjob) as [c0 Hc0].
    unfold cron_Entries, with_cron in Hr. simpl in Hr. rewrite Hc0 in Hr.
    destruct (remove_entries job (entries c0)
                (set_heap (<[job:=c0]> (heap s)) (set_mtx true s)) c0)
      as (c1 & Hrm & He1 & Hr1 & Hn1); [apply lookup_insert_eq |].
    rewrite Hrm in Hr. simpl in Hr.
    unfold cron_AddFunc in Hr.
    destruct (cron_Parse C (resolved C (world s) (UpdateCheckerSpec a')))
      as [cause |] eqn:Hparse.
    * simpl in Hr. rewrite !insert_insert_eq in Hr. subst r. simpl.
      split.
      { eexists. split; [reflexivity |]. unfold loads, logged in *.
        simpl. rewrite !omap_app, Hl, Hlog. done. }
      do 2 eexists. split_and!; [by left | by right | by left].
    * unfold with_cron in Hr. simpl in Hr.
      rewrite lookup_insert_eq in Hr. simpl in Hr.
      unfold cron_Start, with_cron in Hr. simpl in Hr.
      rewrite lookup_insert_eq in Hr. simpl in Hr.
      rewrite !insert_insert_eq in Hr. subst r. simpl.
      split.
      { eexists. split; [reflexivity |]. unfold loads, logged in *.
        simpl. rewrite !omap_app, Hl, Hlog. done. }
      do 2 eexists. split_and!; [by right | by right | by left].
  + unfold cron_New in Hr. simpl in Hr.
    set (job := fresh (dom (heap s))) in *.
    assert (Hfresh : heap s !! job = None).
    { apply not_elem_of_dom. apply is_fresh. }
    unfold cron_AddFunc in Hr.
    destruct (cron_Parse C (resolved C (world s) (UpdateCheckerSpec a')))
      as [cause |] eqn:Hparse.
    * simpl in Hr. subst r. simpl.
      split.
      { eexists. split; [reflexivity |]. unfold loads, logged in *.
        simpl. rewrite !omap_app, Hl, Hlog. done. }
      exists job. eexists. split_and!; [by left | by right | by right].
    * unfold with_cron in Hr. simpl in Hr.
      rewrite lookup_insert_eq in Hr. simpl in Hr.
      unfold cron_Start, with_cron in Hr. simpl in Hr.
      rewrite lookup_insert_eq in Hr. simpl in Hr.
      rewrite !insert_insert_eq in Hr. subst r. simpl.
      split.
      { eexists. split; [reflexivity |]. unfold loads, logged in *.
        simpl. rewrite !omap_app, Hl, Hlog. done. }
      exists job. eexists. split_and!; [by right | by right | by right].
Qed.


(** [Stop], exactly. *)
Lemma Stop_run (appID : string) (s : State W) :
registry_wf s ->
Stop appID s =
  {| outcome := Returned tt;
     final :=
       match jobs s !! appID with
       | Some job => set_heap (alter stopped job (heap s)) s
       | None => s
       end;
     events :=
       match jobs s !! appID with
       | Some _ => []
       | None => [EvLog "debug" "cron job not found for app"]
       end |}.
Proof.
intros Hwf. unfold Stop. unfold_m. unfold jobs_lookup. simpl.
destruct (jobs s !! appID) as [job |] eqn:Hjob; [| done].
destruct (Hwf _ _ Hjob) as [c0 Hc0].
unfold cron_Stop, with_cron. rewrite Hc0. simpl. do 2 f_equal.
apply map_eq. intros p.
destruct (decide (job = p)) as [<- | Hne].
- by rewrite lookup_insert_eq, lookup_alter_eq, Hc0.
- by rewrite lookup_insert_ne, lookup_alter_ne.
Qed.

(** The state [Configure] leaves for an application that is online with a
  cadence that is not disabled: [job] is the job of the application, or a
  fresh object; [c0] is how the scheduler found it. *)
Lemma Configure_online (appID : string) (s : State W) (a : App) :
registry_wf s ->
mtx s = false ->
store_GetApp C appID (world s) = (a, nil) ->
IsAirgap a = false ->
¬ disabled (UpdateCheckerSpec a) ->
let text := resolved C (world s) (UpdateCheckerSpec a) in
let job := default (fresh (dom (heap s))) (jobs s !! ID a) in
let c0 := default {| entries := []; running := false; nextID := 0 |}
            (jobs s !! ID a ≫= fun j => heap s !! j) in
final (Configure C appID s) =
  match cron_Parse C text with
  | Some _ =>
      {| world := world s; jobs := jobs s;
         heap := <[job := {| entries := []; running := running c0;
                             nextID := nextID c0 |}]> (heap s);
         mtx := false |}
  | None =>
      {| world := world s; jobs := <[ID a := job]> (jobs s);
         heap :=
           <[job := {| entries :=
                         [{| EntryID := nextID c0 + 1; entrySpec := text;
                             jobAppID := ID a; jobAppSlug := Slug a |}];
                       running := true; nextID := nextID c0 + 1 |}]> (heap s);
         mtx := false |}
  end.
Proof.
intros Hwf Hmtx Happ Hair Hdis text job c0.
set (r := Configure C appID s).
assert (Hr : r = Configure C appID s) by reflexivity. clearbody r.
unfold Configure in Hr. unfold_m. rewrite Happ in Hr. simpl in Hr.
rewrite Hair in Hr. unfold mtx_Lock in Hr. rewrite Hmtx in Hr.
destruct (decide (UpdateCheckerSpec a = "@never" ∨ UpdateCheckerSpec a = ""))
  as [Hd | _]; [by destruct Hdis |].
destruct (resolveSpec_run C (UpdateCheckerSpec a) (set_mtx true s)) as [tr Hres].
rewrite Hres in Hr. simpl in Hr. fold text in Hr.
unfold jobs_lookup in Hr. simpl in Hr.
subst job c0.
destruct (jobs s !! ID a) as [job |] eqn:Hjob; simpl.
- destruct (Hwf _ _ Hjob) as [c0 Hc0]. rewrite Hc0. simpl.
  unfold cron_Entries, with_cron in Hr. simpl in Hr. rewrite Hc0 in Hr.
  destruct (remove_entries job (entries c0)
              (set_heap (<[job:=c0]> (heap s)) (set_mtx true s)) c0)
    as (c1 & Hrm & He1 & Hr1 & Hn1); [apply lookup_insert_eq |].
  rewrite Hrm in Hr. simpl in Hr.
  assert (Hnone : entries c1 = []).
  { rewrite He1. apply filter_none. intros e He Hnot. apply Hnot.
    by apply list_elem_of_fmap_2. }
  clear He1. destruct c1 as [es1 run1 next1]. simpl in *.
  subst es1 run1 next1.
  unfold cron_AddFunc in Hr.
  destruct (cron_Parse C text) as [cause |] eqn:Hparse.
  + simpl in Hr. rewrite !insert_insert_eq in Hr. by subst r.
  + unfold with_cron in Hr. simpl in Hr.
    rewrite lookup_insert_eq in Hr. simpl in Hr.
    unfold cron_Start, with_cron in Hr. simpl in Hr.
    rewrite lookup_insert_eq in Hr. simpl in Hr.
    rewrite !insert_insert_eq in Hr. by subst r.
- unfold cron_New in Hr. simpl in Hr.
  unfold cron_AddFunc in Hr.
  destruct (cron_Parse C text) as [cause |] eqn:Hparse.
  + simpl in Hr. by subst r.
  + unfold with_cron in Hr. simpl in Hr.
    rewrite lookup_insert_eq in Hr. simpl in Hr.
    unfold cron_Start, with_cron in Hr. simpl in Hr.
    rewrite lookup_insert_eq in Hr. simpl in Hr.
    rewrite !insert_insert_eq in Hr. by subst r.
Qed.


Lemma alter_stopped_twice (job : ptr) (h : gmap ptr Cron) :
alter stopped job (alter stopped job h) = alter stopped job h.
Proof.
apply map_eq. intros p. destruct (decide (job = p)) as [<- | Hne].
- rewrite !lookup_alter_eq. by destruct (h !! job).
- by rewrite !lookup_alter_ne.
Qed.

Lemma Stop_keeps_wf (appID : string) (s : State W) :
registry_wf s ->
registry_wf (final (Stop appID s)) /\
mtx (final (Stop appID s)) = mtx s /\
world (final (Stop appID s)) = world s.
Proof.
intros Hwf. rewrite (Stop_run appID s Hwf). simpl.
destruct (jobs s !! appID) as [job |] eqn:Hjob; [| done].
split_and!; try done.
intros id j Hl. simpl in *. destruct (Hwf _ _ Hl) as [c Hc].
destruct (decide (job = j)) as [<- | Hne].
- rewrite lookup_alter_eq, Hc. by eexists.
- rewrite lookup_alter_ne by done. by eexists.
Qed.

(** X10. [Stop] always returns; it keeps the job in the registry and the
  entries of every scheduler, leaves the application without active
  trigger and the triggers of applications with another job as they were;
  a second [Stop] changes nothing more. *)
Theorem Stop_keeps_job (appID : string) (s : State W) :
registry_wf s ->
let r := Stop appID s in
outcome r = Returned tt /\
jobs (final r) = jobs s /\
(forall job, entries <$> heap (final r) !! job = entries <$> heap s !! job) /\
active_triggers (final r) appID = [] /\
(forall target, jobs s !! target ≠ jobs s !! appID ->
   active_triggers (final r) target = active_triggers s target) /\
final (Stop appID (final r)) = final r.
Proof.
intros Hwf r. subst r. rewrite (Stop_run appID s Hwf). simpl.
destruct (jobs s !! appID) as [job |] eqn:Hjob.
- assert (Hwf' : registry_wf (set_heap (alter stopped job (heap s)) s)).
  { intros id j Hl. simpl in *. destruct (Hwf _ _ Hl) as [c Hc].
    destruct (decide (job = j)) as [<- | Hne].
    - rewrite lookup_alter_eq, Hc. by eexists.
    - rewrite lookup_alter_ne by done. by eexists. }
  split_and!; try done.
  + intros j. simpl. destruct (decide (job = j)) as [<- | Hne].
    * rewrite lookup_alter_eq. by destruct (heap s !! job).
    * by rewrite lookup_alter_ne.
  + unfold active_triggers. simpl. rewrite Hjob, lookup_alter_eq.
    by destruct (heap s !! job).
  + intros target Hne. unfold active_triggers. simpl.
    destruct (jobs s !! target) as [j |] eqn:Hj; [| done].
    rewrite lookup_alter_ne; [done |]. intros ->. by apply Hne.
  + rewrite (Stop_run _ _ Hwf'). simpl. rewrite Hjob.
    unfold set_heap. simpl. by rewrite alter_stopped_twice.
- split_and!; try done.
  + unfold active_triggers. by rewrite Hjob.
  + rewrite (Stop_run _ _ Hwf). by rewrite Hjob.
Qed.

(** X11. When the scheduler refuses the schedule text, [Configure] returns
  the wrapped error and releases the lock; the registry is as it was, so
  an application without job gets none; but a job the application had has
  lost its entries, while it goes on running if it was. *)
Theorem Configure_refused (appID : string) (s : State W) (a : App)
  (cause : string) :
registry_wf s ->
mtx s = false ->
store_GetApp C appID (world s) = (a, nil) ->
IsAirgap a = false ->
¬ disabled (UpdateCheckerSpec a) ->
cron_Parse C (resolved C (world s) (UpdateCheckerSpec a)) = Some cause ->
let r := Configure C appID s in
outcome r = Returned (Some ("failed to add func: " +:+ cause)) /\
jobs (final r) = jobs s /\
mtx (final r) = false /\
active_triggers (final r) (ID a) = [] /\
match jobs s !! ID a with
| Some job =>
    exists c, heap (final r) !! job = Some c /\ entries c = [] /\
              Some (running c) = running <$> heap s !! job
| None =>
    forall job c, heap s !! job = Some c -> heap (final r) !! job = Some c
end.
Proof.
intros Hwf Hmtx Happ Hair Hdis Hparse r.
destruct (Configure_run C appID s a Hwf Hmtx Happ Hair Hdis) as (_ & _ & _ & Hcase).
rewrite Hparse in Hcase. destruct Hcase as [Ho _].
pose proof (Configure_online appID s a Hwf Hmtx Happ Hair Hdis) as Hfin.
simpl in Hfin. rewrite Hparse in Hfin. fold r in Ho, Hfin.
rewrite Hfin. simpl. split_and!; try done.
- unfold active_triggers. simpl.
  destruct (jobs s !! ID a) as [job |] eqn:Hjob; simpl.
  + rewrite lookup_insert_eq. simpl. by destruct (running _).
  + reflexivity.
- destruct (jobs s !! ID a) as [job |] eqn:Hjob; simpl.
  + destruct (Hwf _ _ Hjob) as [c0 Hc0]. rewrite Hc0. simpl.
    eexists. rewrite lookup_insert_eq. done.
  + intros job c Hc. rewrite lookup_insert_ne; [done |].
    intros <-. pose proof (is_fresh (dom (heap s))) as Hf.
    apply not_elem_of_dom in Hf. congruence.
Qed.

(** X12. Disabling the cadence of an application that has a trigger:
  the next [Configure] keeps its job in the registry and the entry in the
  job, and only stops the job, so the application has no active trigger
  any more. *)
Theorem Configure_disable_keeps_entry
  (appID : string) (s : State W) (w2 : W) (a1 a2 : App) :
registry_wf s ->
mtx s = false ->
store_GetApp C appID (world s) = (a1, nil) ->
IsAirgap a1 = false ->
¬ disabled (UpdateCheckerSpec a1) ->
cron_Parse C (resolved C (world s) (UpdateCheckerSpec a1)) = nil ->
store_GetApp C appID w2 = (a2, nil) ->
ID a2 = ID a1 ->
IsAirgap a2 = false ->
disabled (UpdateCheckerSpec a2) ->
let r1 := Configure C appID s in
let r2 := Configure C appID (set_world w2 (final r1)) in
outcome r2 = Returned nil /\
exists job c e,
  active_triggers (final r1) (ID a1) = [e] /\
  jobs (final r2) !! ID a1 = Some job /\
  heap (final r2) !! job = Some c /\
  entries c = [e] /\
  running c = false /\
  active_triggers (final r2) (ID a1) = [].
Proof.
intros Hwf Hmtx Happ1 Hair1 Hdis1 Hparse Happ2 Hid Hair2 Hdis2 r1 r2.
destruct (Configure_run C appID s a1 Hwf Hmtx Happ1 Hair1 Hdis1)
  as (_ & Hm1 & Hwf1 & _).
pose proof (Configure_online appID s a1 Hwf Hmtx Happ1 Hair1 Hdis1) as Hfin.
simpl in Hfin. rewrite Hparse in Hfin. fold r1 in Hm1, Hwf1, Hfin.
set (job := default (fresh (dom (heap s))) (jobs s !! ID a1)) in Hfin.
set (c1 := {| entries := _; running := true; nextID := _ |}) in Hfin.
assert (Hj1 : jobs (final r1) = <[ID a1 := job]> (jobs s))
  by (by rewrite Hfin).
assert (Hh1 : heap (final r1) = <[job := c1]> (heap s))
  by (by rewrite Hfin).
clear Hfin.
assert (Hwf2 : registry_wf (set_world w2 (final r1))) by exact Hwf1.
destruct (Configure_disabled C appID (set_world w2 (final r1)) a2 Hwf2 Hm1
            Happ2 Hair2 Hdis2) as (Ho & _ & _ & _ & Hj & Hh).
fold r2 in Ho, Hj, Hh. simpl in Hj, Hh.
rewrite Hj1, Hid, lookup_insert_eq, Hh1 in Hh. rewrite Hj1 in Hj.
split; [exact Ho |]. exists job, (stopped c1). eexists.
split_and!.
- unfold active_triggers. rewrite Hj1, Hh1, !lookup_insert_eq. reflexivity.
- rewrite Hj. apply lookup_insert_eq.
- rewrite Hh, lookup_alter_eq, lookup_insert_eq. reflexivity.
- reflexivity.
- reflexivity.
- unfold active_triggers.
  rewrite Hj, Hh, lookup_insert_eq, lookup_alter_eq, lookup_insert_eq.
  reflexivity.
Qed.

(** X13. [Configure], [Stop], [Configure]: the second [Configure] finds
  the stopped job, keeps it, starts it again and leaves it with one new
  entry. *)
Theorem Configure_Stop_Configure (appID : string) (s : State W) (a : App) :
registry_wf s ->
mtx s = false ->
store_GetApp C appID (world s) = (a, nil) ->
IsAirgap a = false ->
¬ disabled (UpdateCheckerSpec a) ->
cron_Parse C (resolved C (world s) (UpdateCheckerSpec a)) = nil ->
let r1 := Configure C appID s in
let r2 := Stop (ID a) (final r1) in
let r3 := Configure C appID (final r2) in
exists job e1 e3,
  jobs (final r1) !! ID a = Some job /\
  active_triggers (final r1) (ID a) = [e1] /\
  active_triggers (final r2) (ID a) = [] /\
  outcome r3 = Returned nil /\
  jobs (final r3) !! ID a = Some job /\
  active_triggers (final r3) (ID a) = [e3] /\
  EntryID e3 = EntryID e1 + 1 /\
  entrySpec e3 = resolved C (world s) (UpdateCheckerSpec a).
Proof.
intros Hwf Hmtx Happ Hair Hdis Hparse r1 r2 r3.
destruct (Configure_run C appID s a Hwf Hmtx Happ Hair Hdis)
  as (Hw1 & Hm1 & Hwf1 & _).
pose proof (Configure_online appID s a Hwf Hmtx Happ Hair Hdis) as Hfin1.
simpl in Hfin1. rewrite Hparse in Hfin1. fold r1 in Hw1, Hm1, Hwf1, Hfin1.
set (job := default (fresh (dom (heap s))) (jobs s !! ID a)) in Hfin1.
set (c1 := {| entries := _; running := true; nextID := _ |}) in Hfin1.
assert (Hj1 : jobs (final r1) = <[ID a := job]> (jobs s))
  by (by rewrite Hfin1).
assert (Hh1 : heap (final r1) = <[job := c1]> (heap s))
  by (by rewrite Hfin1).
clear Hfin1.
pose proof (Stop_run (ID a) (final r1) Hwf1) as Hstop. fold r2 in Hstop.
rewrite Hj1, lookup_insert_eq in Hstop.
assert (Hj2 : jobs (final r2) = <[ID a := job]> (jobs s))
  by (by rewrite Hstop).
assert (Hh2 : heap (final r2) = alter stopped job (<[job := c1]> (heap s)))
  by (rewrite Hstop; simpl; by rewrite Hh1).
clear Hstop.
destruct (Stop_keeps_wf (ID a) (final r1) Hwf1) as (Hwf2 & Hm2 & Hw2).
fold r2 in Hwf2, Hm2, Hw2.
assert (Happ2 : store_GetApp C appID (world (final r2)) = (a, nil))
  by (by rewrite Hw2, Hw1).
assert (Hmtx2 : mtx (final r2) = false) by (by rewrite Hm2).
assert (Hparse2 : cron_Parse C (resolved C (world (final r2))
                                  (UpdateCheckerSpec a)) = nil)
  by (by rewrite Hw2, Hw1).
destruct (Configure_run C appID (final r2) a Hwf2 Hmtx2 Happ2 Hair Hdis)
  as (_ & _ & _ & Hcase).
rewrite Hparse2 in Hcase. destruct Hcase as [Ho3 _]. fold r3 in Ho3.
pose proof (Configure_online appID (final r2) a Hwf2 Hmtx2 Happ2 Hair Hdis)
  as Hfin3.
simpl in Hfin3. rewrite Hparse2 in Hfin3. fold r3 in Hfin3.
rewrite Hj2, lookup_insert_eq in Hfin3. simpl in Hfin3.
rewrite Hh2, lookup_alter_eq, lookup_insert_eq in Hfin3. simpl in Hfin3.
rewrite Hw2, Hw1 in Hfin3.
do 3 eexists. split_and!.
- rewrite Hj1. apply lookup_insert_eq.
- unfold active_triggers. rewrite Hj1, Hh1, !lookup_insert_eq. reflexivity.
- unfold active_triggers.
  rewrite Hj2, Hh2, lookup_insert_eq, lookup_alter_eq, lookup_insert_eq.
  reflexivity.
- exact Ho3.
- rewrite Hfin3. simpl. apply lookup_insert_eq.
- unfold active_triggers. rewrite Hfin3. simpl.
  rewrite !lookup_insert_eq. reflexivity.
- reflexivity.
- reflexivity.
Qed.

(** X14. From a well-formed registry in which no two applications share a
  scheduler, with the lock free, [Configure] always returns, with the lock
  free again, the world as it was and the registry still well formed and
  without sharing, whatever the application and whatever fails. *)
Theorem Configure_keeps_invariants (appID : string) (s : State W) :
registry_wf s ->
registry_inj s ->
mtx s = false ->
let r := Configure C appID s in
(exists err, outcome r = Returned err) /\
world (final r) = world s /\
mtx (final r) = false /\
registry_wf (final r) /\
registry_inj (final r).
Proof.
intros Hwf Hinj Hmtx r.
destruct (Configure_total C appID s Hwf Hmtx) as (Ho & Hw & Hm & Hwf' & _).
destruct (Configure_footprint appID s Hwf Hmtx)
  as (_ & job & c & Hj & _ & Hjob).
fold r in Ho, Hw, Hm, Hwf', Hj. split_and!; try done.
intros id1 id2 j. destruct Hj as [-> | ->]; [apply Hinj |].
destruct Hjob as [Hjob | [Hjob Hfresh]].
- rewrite (insert_id _ _ _ Hjob). apply Hinj.
- intros H1 H2.
  destruct (decide (ID (store_GetApp C appID (world s)).1 = id1)) as [<- | Hne1];
    destruct (decide (ID (store_GetApp C appID (world s)).1 = id2)) as [<- | Hne2];
    try done.
  + rewrite lookup_insert_eq in H1. injection H1 as <-.
    rewrite lookup_insert_ne in H2 by done.
    destruct (Hwf _ _ H2) as [? ?]. congruence.
  + rewrite lookup_insert_eq in H2. injection H2 as <-.
    rewrite lookup_insert_ne in H1 by done.
    destruct (Hwf _ _ H1) as [? ?]. congruence.
  + rewrite lookup_insert_ne in H1, H2 by done. by eapply Hinj.
Qed.

(** X15. [Configure] for one application leaves the job and the active
  triggers of every other application as they were. *)
Theorem Configure_other_apps_untouched
  (appID target : string) (s : State W) (a : App) (err : error) :
registry_wf s ->
registry_inj s ->
mtx s = false ->
store_GetApp C appID (world s) = (a, err) ->
target ≠ ID a ->
let r := Configure C appID s in
jobs (final r) !! target = jobs s !! target /\
active_triggers (final r) target = active_triggers s target.
Proof.
intros Hwf Hinj Hmtx Happ Hne r.
destruct (Configure_footprint appID s Hwf Hmtx)
  as (_ & job & c & Hj & Hh & Hjob).
rewrite Happ in Hj, Hjob. simpl in Hj, Hjob. fold r in Hj, Hh.
assert (Hsame : jobs (final r) !! target = jobs s !! target).
{ destruct Hj as [-> | ->]; [done |]. by rewrite lookup_insert_ne. }
split; [exact Hsame |].
unfold active_triggers. rewrite Hsame.
destruct (jobs s !! target) as [j |] eqn:Hjt; [| done].
destruct Hh as [-> | ->]; [done |].
rewrite lookup_insert_ne; [done |]. intros <-.
destruct Hjob as [Hjob | [_ Hfresh]].
- apply Hne. by eapply Hinj.
- destruct (Hwf _ _ Hjt) as [? ?]. congruence.
Qed.

Lemma Start_loop_loads (appsList : list App) :
forall s : State W,
  registry_wf s -> mtx s = false ->
  let r := for_range appsList (fun a =>
             if IsAirgap a then mret tt else
             err ← Configure C (ID a);
             if not_nil err
             then logger_Error
                    (errors_Wrap err ("failed to configure app " +:+ Slug a))
             else mret tt) s in
  outcome r = Returned tt /\
  loads (events r) = ID <$> filter (fun a => IsAirgap a = false) appsList /\
  registry_wf (final r) /\ mtx (final r) = false /\
  world (final r) = world s.
Proof.
induction appsList as [|x l IH]; intros s Hwf Hmtx r; subst r; [done |].
simpl for_range.
destruct (IsAirgap x) eqn:Hair.
- rewrite filter_cons_False by (by rewrite Hair).
  unfold bind at 1. unfold_m. simpl.
  destruct (IH s Hwf Hmtx) as (Ho & Hl & Hrest).
  destruct (for_range l _ s) as [o sf tr]. simpl in *. by subst o.
- rewrite filter_cons_True by done.
  destruct (Configure_total C (ID x) s Hwf Hmtx)
    as ([err Ho] & Hw' & Hm' & Hwf' & _).
  destruct (Configure_footprint (ID x) s Hwf Hmtx)
    as ((tl & Hev & Hl & _) & _).
  specialize (IH _ Hwf' Hm').
  unfold bind at 1. unfold_m.
  destruct (Configure C (ID x) s) as [o s1 t1]. simpl in *. subst o t1.
  destruct err as [e|]; simpl.
  + destruct (for_range l _ s1) as [o sf tr]. simpl in *.
    destruct IH as (-> & Hl' & ? & ? & ->).
    split_and!; try done. unfold loads in *. simpl.
    rewrite !omap_app, Hl. simpl. by rewrite Hl'.
  + destruct (for_range l _ s1) as [o sf tr]. simpl in *.
    destruct IH as (-> & Hl' & ? & ? & ->).
    split_and!; try done. unfold loads in *. simpl.
    rewrite !omap_app, Hl. simpl. by rewrite Hl'.
Qed.

(** X16. [Start] returns [nil] whenever the list of applications could be
  read, whatever the calls of [Configure] answered; it loads and
  configures exactly the applications of the list that are not airgapped,
  in the order of the list, and leaves the lock free.  When the list
  cannot be read it returns the wrapped error and configures nothing. *)
Theorem Start_configures_online_apps (s : State W) :
registry_wf s ->
mtx s = false ->
let r := Start C s in
mtx (final r) = false /\
registry_wf (final r) /\
match store_ListInstalledApps C (world s) with
| (appsList, None) =>
    outcome r = Returned nil /\
    loads (events r) = ID <$> filter (fun a => IsAirgap a = false) appsList
| (_, Some e) =>
    outcome r = Returned (Some ("failed to list installed apps: " +:+ e)) /\
    loads (events r) = [] /\ final r = s
end.
Proof.
intros Hwf Hmtx r.
assert (Hr : r = Start C s) by reflexivity. clearbody r.
unfold Start in Hr. unfold_m. simpl in Hr.
destruct (store_ListInstalledApps C (world s)) as [appsList [e|]] eqn:Hlist;
  simpl in Hr.
- subst r. simpl. by split_and!.
- destruct (Start_loop_loads appsList s Hwf Hmtx) as (Ho & Hl & Hwf' & Hm & _).
  unfold_m.
  destruct (for_range appsList _ s) as [o sf tr].
  simpl in *. subst o r. simpl. split_and!; try done.
  unfold loads in *. simpl. by rewrite omap_app, Hl, app_nil_r.
Qed.

End ConfigureMore.

(** ** The statements at concrete inputs *)

(** The gate is closed: status "running". *)
Lemma CheckForUpdates_already_running_witness :
  CheckForUpdates Stub.collaborators "app1" true false false
    (Stub.initial (Stub.world0 "@default" "running" [] 2 [] [])) =
  {| outcome := Returned (0, nil);
     final := Stub.initial (Stub.world0 "@default" "running" [] 2 [] []);
     events :=
       [EvGetTaskStatus "update-download" ("running", "", nil);
        EvLog "debug"
          "update-download is already running, not starting a new one"] |}.
Proof.
  apply (CheckForUpdates_already_running Stub.collaborators "app1" true false
           false (Stub.initial (Stub.world0 "@default" "running" [] 2 [] []))
           "").
  reflexivity.
Defined.

(** Three releases, the download of the first fails, [deploy] set: the three
    are downloaded in order and the deploy is for the sequence of the
    third. *)
Example stagingTask_first_download_fails :
  let r := stagingTask Stub.collaborators (Stub.app1 "") "/tmp/kotsadm1"
             [{| Cursor := "c1" |}; {| Cursor := "c2" |}; {| Cursor := "c3" |}]
             true false false
             (Stub.initial (Stub.world0 "" "running" [] 2 [] ["c1"])) in
  downloads (events r) =
    [("c1", (0, Some "failed to download c1")); ("c2", (3, None));
     ("c3", (4, None))] /\
  deploys (events r) = [("app1", 4)].
Proof. vm_compute. split; reflexivity. Qed.

(** The synchronous steps of a check on a stub world without failure. *)
Ltac stub_discovery :=
  unfold discovery_succeeds; do 12 eexists;
  split_and!; first [reflexivity | discriminate].

(** No release, [deploy] set, the downstream at sequence 1 behind the last
    sequence 2. *)
Lemma CheckForUpdates_reassert_last_version_witness :
  let r := CheckForUpdates Stub.collaborators "app1" true false false
             (Stub.initial (Stub.world0 "@default" "" [] 1 [] [])) in
  deploys (events r) = [("app1", 2)] /\ outcome r = Returned (0, nil).
Proof.
  destruct (CheckForUpdates_reassert_last_version Stub.collaborators "app1"
              false false
              (Stub.initial (Stub.world0 "@default" "" [] 1 [] []))
              (Stub.app1 "@default") "/tmp/kotsadm1"
              (Stub.world0 "@default" "" [] 1 [] [])
              [{| Sequence := 0 |}; {| Sequence := 1 |}; {| Sequence := 2 |}]
              {| ClusterID := "this-cluster" |} [] 1)
    as (_ & Hbehind & _).
  - stub_discovery.
  - reflexivity.
  - discriminate.
  - reflexivity.
  - reflexivity.
  - destruct Hbehind as (Hdeploys & res & _ & Hres & Hout);
      [intros H; vm_compute in H; discriminate H |].
    split; [exact Hdeploys |]. rewrite Hout, Hres. reflexivity.
Defined.

(** The list of versions out of order, [0; 2; 1]: the highest sequence is 2,
    yet with the downstream at 1 no deploy call is made, and with the
    downstream at 2 sequence 1 is deployed. *)
Lemma CheckForUpdates_reassert_unordered :
  let allVersions :=
    [{| Sequence := 0 |}; {| Sequence := 2 |}; {| Sequence := 1 |}] in
  let r1 := CheckForUpdates Stub.collaborators "app1" true false false
              (Stub.initial
                 (Stub.with_versions allVersions
                    (Stub.world0 "@default" "" [] 1 [] []))) in
  let r2 := CheckForUpdates Stub.collaborators "app1" true false false
              (Stub.initial
                 (Stub.with_versions allVersions
                    (Stub.world0 "@default" "" [] 2 [] []))) in
  highest_sequence allVersions = 2 /\
  deploys (events r1) = [] /\
  deploys (events r2) = [("app1", 1)].
Proof. vm_compute. split_and!; reflexivity. Qed.

(** No release, [deploy] set, no downstream: the list is read and the call
    panics. *)
Lemma CheckForUpdates_first_downstream_witness :
  outcome (CheckForUpdates Stub.collaborators "app1" true false false
             (Stub.initial
                (Stub.without_downstreams
                   (Stub.world0 "@default" "" [] 1 [] [])))) =
  Panicked "runtime error: index out of range [0] with length 0".
Proof.
  destruct (CheckForUpdates_first_downstream Stub.collaborators "app1" true
              false false
              (Stub.initial
                 (Stub.without_downstreams
                    (Stub.world0 "@default" "" [] 1 [] []))))
    as (Hpath & _).
  destruct (Hpath (Stub.app1 "@default") "/tmp/kotsadm1"
              (Stub.without_downstreams (Stub.world0 "@default" "" [] 1 [] []))
              [{| Sequence := 0 |}; {| Sequence := 1 |}; {| Sequence := 2 |}] [])
    as (_ & Hpanic).
  - reflexivity.
  - stub_discovery.
  - reflexivity.
  - discriminate.
  - reflexivity.
  - exact Hpanic.
Defined.

(** Two calls of [Configure] for an application with the default cadence. *)
Lemma Configure_twice_one_entry_witness :
  let s := Stub.initial (Stub.world0 "@default" "" [] 2 [] []) in
  let r1 := Configure Stub.collaborators "app1" s in
  let r2 := Configure Stub.collaborators "app1"
              (set_world (Stub.world0 "@default" "" [] 2 [] []) (final r1)) in
  exists e, active_triggers (final r2) "app1" = [e] /\ EntryID e = 2.
Proof.
  intros s r1 r2.
  destruct (Configure_twice_one_entry Stub.collaborators "app1" s
              (Stub.world0 "@default" "" [] 2 [] [])
              (Stub.app1 "@default") (Stub.app1 "@default"))
    as (_ & _ & job & c1 & c2 & e1 & e2 & Hj1 & Hc1 & He1 & _ & _ & _ & _
        & Hactive & Hid & _).
  - intros appID job Hl. unfold s, Stub.initial in Hl. cbn [jobs] in Hl. rewrite lookup_empty in Hl. discriminate Hl.
  - reflexivity.
  - reflexivity.
  - reflexivity.
  - reflexivity.
  - reflexivity.
  - reflexivity.
  - intros [H | H]; discriminate H.
  - intros [H | H]; discriminate H.
  - vm_compute. reflexivity.
  - vm_compute. reflexivity.
  - exists e2. split; [exact Hactive |]. rewrite Hid.
    fold s r1 in Hj1, Hc1.
    assert (Hrun : (jobs (final r1) !! "app1" ≫= fun j => heap (final r1) !! j)
                   = Some c1).
    { change (ID (Stub.app1 "@default")) with "app1" in Hj1.
      rewrite Hj1. exact Hc1. }
    vm_compute in Hrun. injection Hrun as <-. simpl in He1.
    injection He1 as <-. reflexivity.
Defined.

(** The write of the last-checked time fails, with [deploy] set, no release
    and the downstream behind: the call reports no error, and the deploy that
    the same call makes when the write succeeds is not made. *)
Lemma CheckForUpdates_last_checked_failure_unreported :
  let r := CheckForUpdates Stub.collaborators "app1" true false false
             (Stub.initial
                (Stub.world0 "@default" "" [] 1 ["LastUpdateAtTime"] [])) in
  let r' := CheckForUpdates Stub.collaborators "app1" true false false
              (Stub.initial (Stub.world0 "@default" "" [] 1 [] [])) in
  EvLastUpdateAtTime "app1" (Some "LastUpdateAtTime failed") ∈ events r /\
  outcome r = Returned (0, nil) /\
  deploys (events r) = [] /\
  deploys (events r') = [("app1", 2)].
Proof. vm_compute. split_and!; try reflexivity. here. Qed.

Lemma CheckForUpdates_last_checked_failure_aborts_witness :
  let r := CheckForUpdates Stub.collaborators "app1" true false false
             (Stub.initial
                (Stub.world0 "@default" "" [] 1 ["LastUpdateAtTime"] [])) in
  (exists err, outcome r = Returned (0, err)) /\
  deploys (events r) = [] /\ spawned (events r) = [].
Proof.
  destruct (CheckForUpdates_last_checked_failure_aborts Stub.collaborators
              "app1" true false false
              (Stub.initial
                 (Stub.world0 "@default" "" [] 1 ["LastUpdateAtTime"] []))
              "app1" "LastUpdateAtTime failed")
    as (Hout & _ & Hdeploys & Hspawned & _).
  - vm_compute. here.
  - split_and!; assumption.
Defined.

(** The license sync fails: no write of the status. *)
Lemma CheckForUpdates_error_gate_not_set_witness :
  let r := CheckForUpdates Stub.collaborators "app1" true false false
             (Stub.initial
                (Stub.world0 "@default" "" [{| Cursor := "c1" |}] 1 ["Sync"] [])) in
  (exists err, outcome r = Returned (0, err)) /\
  forall i m st res, EvSetTaskStatus i m st res ∉ events r.
Proof.
  destruct (CheckForUpdates_error_gate_not_set Stub.collaborators "app1" true
              false false
              (Stub.initial
                 (Stub.world0 "@default" "" [{| Cursor := "c1" |}] 1 ["Sync"] [])))
    as (_ & Hsync & _).
  destruct (Hsync (EvLicenseSync (Stub.app1 "@default")
                     ("license", false, Some "Sync failed")))
    as (Hout & _ & Hset).
  - vm_compute. here.
  - exact I.
  - split; assumption.
Defined.

(** An application with cadence "@never": [Configure], then [Start]. *)
Lemma Configure_never_no_trigger_witness :
  let s := Stub.initial (Stub.world0 "@never" "" [] 2 [] []) in
  active_triggers (final (Configure Stub.collaborators "app1" s)) "app1" = [] /\
  active_triggers (final (Start Stub.collaborators s)) "app1" = [].
Proof.
  intros s.
  destruct (Configure_never_no_trigger Stub.collaborators) as [Hconfigure Hstart].
  split.
  - destruct (Hconfigure "app1" s (Stub.app1 "@never")) as (_ & _ & _ & _ & H).
    + intros appID job Hl. unfold s, Stub.initial in Hl. cbn [jobs] in Hl. rewrite lookup_empty in Hl. discriminate Hl.
    + reflexivity.
    + reflexivity.
    + reflexivity.
    + left. reflexivity.
    + exact H.
  - destruct (Hstart (Stub.world0 "@never" "" [] 2 [] []) "app1")
      as (_ & _ & H).
    + intros id a Hget Hid. simpl in Hget. unfold Stub.getApp in Hget.
      simpl in Hget.
      unfold nil in Hget.
      destruct (bool_decide ("app1" = id)); simpl in Hget;
        [injection Hget as <-; left; reflexivity | discriminate Hget].
    + exact H.
Defined.


(** No release, [deploy] set, no downstream: the call panics. *)
Example CheckForUpdates_no_downstream_panics :
  outcome (CheckForUpdates Stub.collaborators "app1" true false false
             (Stub.initial
                (Stub.without_downstreams
                   (Stub.world0 "@default" "" [] 1 [] [])))) =
  Panicked "runtime error: index out of range [0] with length 0".
Proof. vm_compute. reflexivity. Qed.

(** The default cadence resolved at 01:46: the text, and a firing at
    05:46. *)
Lemma default_cadence_every_four_hours_witness :
  let s := Stub.initial (Stub.world0 "@default" "" [] 2 [] []) in
  outcome (resolveSpec Stub.collaborators "@default" s)
  = Returned "46 1/4 * * *" /\
  CronSpec.fires (every_four_hours 46 1) 1 1 0 5 46 = true.
Proof.
  intros s.
  destruct (default_cadence_every_four_hours Stub.collaborators s)
    as (Htext & _ & _ & _ & Hfires & _).
  split; [exact Htext |].
  apply (Hfires 1 1 0 5 46); [lia | lia | lia | lia | lia |].
  vm_compute. reflexivity.
Defined.

(** ** The further statements at concrete inputs *)

Ltac empty_registry :=
  unfold registry_wf, registry_inj; intros;
  repeat match goal with x := _ : State _ |- _ => subst x end;
  match goal with
  | H : _ !! _ = Some _ |- _ =>
      unfold Stub.initial in H; cbn [jobs] in H;
      rewrite lookup_empty in H; discriminate H
  end.

Lemma CheckForUpdates_archive_dir_witness :
  let r := CheckForUpdates Stub.collaborators "app1" false false false
             (Stub.initial (Stub.world0 "@default" "" [] 2 [] [])) in
  removals (events r) = ["/tmp/kotsadm1"].
Proof.
  intros r.
  destruct (CheckForUpdates_archive_dir Stub.collaborators "app1" false false
              false (Stub.initial (Stub.world0 "@default" "" [] 2 [] []))
              "/tmp/kotsadm1")
    as [(_ & Hrm & _) | (a & updates & Hsp & _)].
  - vm_compute. here.
  - exact Hrm.
  - vm_compute in Hsp. discriminate Hsp.
Defined.

Lemma CheckForUpdates_no_dir_no_removal_witness :
  let r := CheckForUpdates Stub.collaborators "app1" true false false
             (Stub.initial (Stub.world0 "@default" "running" [] 2 [] [])) in
  removals (events r) = [] /\ spawned (events r) = [].
Proof.
  intros r.
  destruct (CheckForUpdates_no_dir_no_removal Stub.collaborators "app1" true
              false false
              (Stub.initial (Stub.world0 "@default" "running" [] 2 [] [])))
    as (Hrm & Hsp & _).
  - intros dir Hin.
    assert (Hev : events (CheckForUpdates Stub.collaborators "app1" true false
                            false
                            (Stub.initial
                               (Stub.world0 "@default" "running" [] 2 [] [])))
                  = [EvGetTaskStatus "update-download" ("running", "", nil);
                     EvLog "debug"
                       "update-download is already running, not starting a new one"])
      by (vm_compute; reflexivity).
    rewrite Hev in Hin. in_trace Hin.
  - split; assumption.
Defined.

Lemma CheckForUpdates_status_write_witness :
  let r := CheckForUpdates Stub.collaborators "app1" false false false
             (Stub.initial
                (Stub.world0 "@default" "" [{| Cursor := "c1" |}] 2 [] [])) in
  exists updates : list Update,
    outcome r = Returned (Z.of_nat (length updates), nil).
Proof.
  intros r.
  destruct (CheckForUpdates_status_write Stub.collaborators "app1" false false
              false
              (Stub.initial
                 (Stub.world0 "@default" "" [{| Cursor := "c1" |}] 2 [] []))
              "update-download" "1 Updates available..." "running" None)
    as (upstreamURI & o & updates & _ & _ & _ & _ & Hout).
  - vm_compute. here.
  - exists updates. exact Hout.
Defined.

Lemma CheckForUpdates_error_wrapped_witness :
  outcome (CheckForUpdates Stub.collaborators "app1" true false false
             (Stub.initial (Stub.world0 "@default" "" [] 2 ["Sync"] []))) =
  Returned (0, Some "failed to sync license: Sync failed").
Proof.
  destruct (CheckForUpdates_error_wrapped Stub.collaborators "app1" true false
              false
              (Stub.initial (Stub.world0 "@default" "" [] 2 ["Sync"] [])))
    as (Hfailed & _).
  apply (Hfailed (EvLicenseSync (Stub.app1 "@default")
                    ("license", false, Some "Sync failed"))
           "failed to sync license" "Sync failed").
  - vm_compute. here.
  - reflexivity.
Defined.

Lemma CheckForUpdates_hands_batch_witness :
  let r := CheckForUpdates Stub.collaborators "app1" true false false
             (Stub.initial
                (Stub.world0 "@default" ""
                   [{| Cursor := "c1" |}; {| Cursor := "c2" |}] 2 [] [])) in
  outcome r = Returned (2, nil).
Proof.
  intros r.
  destruct (CheckForUpdates_hands_batch Stub.collaborators "app1" true false
              false
              (Stub.initial
                 (Stub.world0 "@default" ""
                    [{| Cursor := "c1" |}; {| Cursor := "c2" |}] 2 [] []))
              (TaskStaging (Stub.app1 "@default") "/tmp/kotsadm1"
                 [{| Cursor := "c1" |}; {| Cursor := "c2" |}] true false false))
    as (a & dir & updates & upstreamURI & o & Ht & _ & _ & Hout).
  - vm_compute. here.
  - injection Ht as _ _ <-. exact Hout.
Defined.

Lemma CheckForUpdates_dir_removed_once_witness :
  let r := CheckForUpdates Stub.collaborators "app1" true false false
             (Stub.initial
                (Stub.world0 "@default" "" [{| Cursor := "c1" |}] 2 [] [])) in
  exists t, spawned (events r) = [t] /\
            removals (events r) ++
            removals (events (run_task Stub.collaborators t (final r)))
            = ["/tmp/kotsadm1"].
Proof.
  intros r.
  destruct (CheckForUpdates_dir_removed_once Stub.collaborators "app1" true
              false false
              (Stub.initial
                 (Stub.world0 "@default" "" [{| Cursor := "c1" |}] 2 [] []))
              "/tmp/kotsadm1")
    as [(Hsp & _) | (t & Hsp & Hrm)].
  - vm_compute. here.
  - vm_compute in Hsp. discriminate Hsp.
  - exists t. split; [exact Hsp | apply Hrm].
Defined.

Lemma Stop_keeps_job_witness :
  let s := Stub.initial (Stub.world0 "@default" "" [] 2 [] []) in
  let s1 := final (Configure Stub.collaborators "app1" s) in
  active_triggers (final (Stop "app1" s1)) "app1" = [] /\
  jobs (final (Stop "app1" s1)) = jobs s1.
Proof.
  intros s s1.
  assert (Hwf : registry_wf s1).
  { destruct (Configure_total Stub.collaborators "app1" s)
      as (_ & _ & _ & Hwf' & _); [empty_registry | reflexivity | exact Hwf']. }
  destruct (Stop_keeps_job "app1" s1 Hwf) as (_ & Hj & _ & Hactive & _).
  split; assumption.
Defined.

Lemma Configure_refused_witness :
  let s := Stub.initial (Stub.world0 "every hour" "" [] 2 [] []) in
  let r := Configure Stub.collaborators "app1" s in
  outcome r = Returned (Some "failed to add func: failed to parse every hour")
  /\ jobs (final r) = jobs s.
Proof.
  intros s r.
  destruct (Configure_refused Stub.collaborators "app1" s
              (Stub.app1 "every hour") "failed to parse every hour")
    as (Ho & Hj & _).
  - empty_registry.
  - reflexivity.
  - reflexivity.
  - reflexivity.
  - intros [H | H]; discriminate H.
  - vm_compute. reflexivity.
  - split; assumption.
Defined.

Lemma Configure_disable_keeps_entry_witness :
  let s := Stub.initial (Stub.world0 "@default" "" [] 2 [] []) in
  let r1 := Configure Stub.collaborators "app1" s in
  let r2 := Configure Stub.collaborators "app1"
              (set_world (Stub.world0 "@never" "" [] 2 [] []) (final r1)) in
  exists e, active_triggers (final r1) "app1" = [e] /\
            active_triggers (final r2) "app1" = [].
Proof.
  intros s r1 r2.
  destruct (Configure_disable_keeps_entry Stub.collaborators "app1" s
              (Stub.world0 "@never" "" [] 2 [] [])
              (Stub.app1 "@default") (Stub.app1 "@never"))
    as (_ & job & c & e & H1 & _ & _ & _ & _ & H2).
  - empty_registry.
  - reflexivity.
  - reflexivity.
  - reflexivity.
  - intros [H | H]; discriminate H.
  - vm_compute. reflexivity.
  - reflexivity.
  - reflexivity.
  - reflexivity.
  - left. reflexivity.
  - exists e. split; assumption.
Defined.

Lemma Configure_Stop_Configure_witness :
  let s := Stub.initial (Stub.world0 "@default" "" [] 2 [] []) in
  let r1 := Configure Stub.collaborators "app1" s in
  let r2 := Stop "app1" (final r1) in
  let r3 := Configure Stub.collaborators "app1" (final r2) in
  exists e3, active_triggers (final r3) "app1" = [e3] /\
             entrySpec e3 = "46 1/4 * * *".
Proof.
  intros s r1 r2 r3.
  destruct (Configure_Stop_Configure Stub.collaborators "app1" s
              (Stub.app1 "@default"))
    as (job & e1 & e3 & _ & _ & _ & _ & _ & H3 & _ & Hspec).
  - empty_registry.
  - reflexivity.
  - reflexivity.
  - reflexivity.
  - intros [H | H]; discriminate H.
  - vm_compute. reflexivity.
  - exists e3. split; [exact H3 |]. rewrite Hspec. vm_compute. reflexivity.
Defined.

Lemma Configure_keeps_invariants_witness :
  let s := Stub.initial (Stub.world0 "@default" "" [] 2 [] []) in
  let r := Configure Stub.collaborators "app1" s in
  mtx (final r) = false /\ registry_wf (final r) /\ registry_inj (final r).
Proof.
  intros s r.
  destruct (Configure_keeps_invariants Stub.collaborators "app1" s)
    as (_ & _ & Hm & Hwf & Hinj).
  - empty_registry.
  - empty_registry.
  - reflexivity.
  - split_and!; assumption.
Defined.

Lemma Configure_other_apps_untouched_witness :
  let s := Stub.initial (Stub.world0 "@default" "" [] 2 [] []) in
  let r := Configure Stub.collaborators "app1" s in
  jobs (final r) !! "app2" = None.
Proof.
  intros s r.
  destruct (Configure_other_apps_untouched Stub.collaborators "app1" "app2" s
              (Stub.app1 "@default") nil) as (Hj & _).
  - empty_registry.
  - empty_registry.
  - reflexivity.
  - reflexivity.
  - discriminate.
  - fold r in Hj. rewrite Hj. apply lookup_empty.
Defined.

Lemma Start_configures_online_apps_witness :
  let s := Stub.initial (Stub.world0 "@default" "" [] 2 [] []) in
  let r := Start Stub.collaborators s in
  outcome r = Returned nil /\ loads (events r) = ["app1"].
Proof.
  intros s r.
  destruct (Start_configures_online_apps Stub.collaborators s)
    as (_ & _ & Hcase).
  - empty_registry.
  - reflexivity.
  - exact Hcase.
Defined.
